(** * jsonlogic: a shallow embedding of the rule evaluator of [jsonlogic.go]

    The evaluator works on Go values of static type [interface{}].  The
    embedding keeps the dynamic kinds the source tests for ([nil], [bool],
    [int], [float64], [string], [[]interface{}], [map[string]interface{}]),
    makes every unchecked type assertion and index expression an explicit
    run-time panic, and keeps the order in which the source evaluates them. *)

From Stdlib Require Import List String Ascii ZArith Bool Lia DecimalString
  Permutation.
From Stdlib Require Import Floats.PrimFloat Floats.SpecFloat Floats.FloatOps
  Floats.FloatAxioms.
Import ListNotations.

Local Open Scope string_scope.
Local Open Scope list_scope.

(** ** Go values *)

(** A value held in an [interface{}].  [VFloat] carries an IEEE 754 binary64
    number, which is what Go's [float64] is.  A map is listed in the order a
    [range] loop visits its entries; indexing it by key finds the entry with
    that key.  The properties below go by cases and by induction on lists;
    no induction principle is generated for the nested type. *)
Unset Elimination Schemes.
Inductive Value : Type :=
| VNil
| VBool (b : bool)
| VInt (n : Z)
| VFloat (f : float)
| VString (s : string)
| VSlice (l : list Value)
| VMap (m : list (string * Value)).
Set Elimination Schemes.

(** The kinds of package [reflect] that the source compares against. *)
Module reflect.
Inductive Kind : Type :=
| Invalid | Bool | Int | Float64 | String | Array | Slice | Map | Ptr.

Definition Kind_eqb (j k : Kind) : bool :=
  match j, k with
  | Invalid, Invalid | Bool, Bool | Int, Int | Float64, Float64
  | String, String | Array, Array | Slice, Slice | Map, Map | Ptr, Ptr => true
  | _, _ => false
  end.

(** [reflect.ValueOf(v).Kind()]; the zero [reflect.Value] of a nil
    interface has kind [Invalid]. *)
Definition KindOf (v : Value) : Kind :=
  match v with
  | VNil => Invalid
  | VBool _ => Bool
  | VInt _ => Int
  | VFloat _ => Float64
  | VString _ => String
  | VSlice _ => Slice
  | VMap _ => Map
  end.
End reflect.

(** ** Panics *)

Inductive PanicKind : Type :=
| InterfaceConversion      (* a failed type assertion x.(T) *)
| IndexOutOfRange          (* s[i] with i outside 0 <= i < len(s) *)
| UncomparableType         (* == on two interfaces holding slices or maps *)
| ReflectSet.              (* reflect.Value.Set with an unassignable value *)

(** A call either returns a value or panics. *)
Inductive exec (A : Type) : Type :=
| Ok (a : A)
| Panic (p : PanicKind).
Arguments Ok {A} a.
Arguments Panic {A} p.

Definition bind {A B : Type} (r : exec A) (k : A -> exec B) : exec B :=
  match r with
  | Ok a => k a
  | Panic p => Panic p
  end.

Notation "x <- r ;; k" := (bind r (fun x => k))
  (at level 61, r at next level, right associativity).

(** [p && q] and [p || q] evaluate [q] only when [p] does not decide. *)
Definition and_then (p : exec bool) (q : exec bool) : exec bool :=
  b <- p ;; if b then q else Ok false.

Definition or_else (p : exec bool) (q : exec bool) : exec bool :=
  b <- p ;; if b then Ok true else q.

(** Type assertions [x.(T)]. *)
Definition asBool (v : Value) : exec bool :=
  match v with VBool b => Ok b | _ => Panic InterfaceConversion end.

Definition asFloat64 (v : Value) : exec float :=
  match v with VFloat f => Ok f | _ => Panic InterfaceConversion end.

Definition asString (v : Value) : exec string :=
  match v with VString s => Ok s | _ => Panic InterfaceConversion end.

Definition asSlice (v : Value) : exec (list Value) :=
  match v with VSlice l => Ok l | _ => Panic InterfaceConversion end.

Definition asMap (v : Value) : exec (list (string * Value)) :=
  match v with VMap m => Ok m | _ => Panic InterfaceConversion end.

(** Index expressions [s[i]] and [m[k]]. *)
Definition index (l : list Value) (i : Z) : exec Value :=
  if (i <? 0)%Z then Panic IndexOutOfRange
  else match nth_error l (Z.to_nat i) with
       | Some v => Ok v
       | None => Panic IndexOutOfRange
       end.

Fixpoint mapIndex (m : list (string * Value)) (k : string) : Value :=
  match m with
  | [] => VNil
  | (k', v) :: m' => if String.eqb k' k then v else mapIndex m' k
  end.

(** ** Library functions the source calls *)

(** [w > v] on [float64] and on [string]. *)
Definition float_gt (w v : float) : bool := PrimFloat.ltb v w.
Definition string_gt (w v : string) : bool := String.ltb v w.

(** [strings.Contains(s, substr)]. *)
Fixpoint Contains (s substr : string) : bool :=
  prefix substr s ||
  match s with
  | EmptyString => false
  | String _ s' => Contains s' substr
  end.

(** [strings.Split(s, ".")]. *)
Fixpoint Split (s : string) : list string :=
  match s with
  | EmptyString => [EmptyString]
  | String c s' =>
      if Ascii.eqb c "."%char then EmptyString :: Split s'
      else match Split s' with
           | part :: parts => String c part :: parts
           | [] => [String c EmptyString]
           end
  end.

(** What [strconv.ParseFloat] returns: the number, the nearest infinity
    together with a range error, or zero together with a syntax error. *)
Inductive ParseFloatResult : Type :=
| Parsed (f : float)
| ErrRange (f : float)
| ErrSyntax.

(** The first component of the pair, which is all [w, _ = ...] keeps. *)
Definition parsedFloat (r : ParseFloatResult) : float :=
  match r with
  | Parsed f => f
  | ErrRange f => f
  | ErrSyntax => 0%float
  end.

(** The conversion [int(f)] where [f] has an integer part: truncation
    towards zero. *)
Definition truncate (f : float) : option Z :=
  match Prim2SF f with
  | S754_zero _ => Some 0%Z
  | S754_finite s m e =>
      let z := match e with
               | Z0 => Zpos m
               | Zpos p => Z.shiftl (Zpos m) (Zpos p)
               | Zneg p => Z.shiftr (Zpos m) (Zpos p)
               end in
      Some (if s then (- z)%Z else z)
  | _ => None
  end.

Definition fits_int (z : Z) : bool :=
  ((- 2 ^ 63 <=? z) && (z <? 2 ^ 63))%Z.

(** The conversion [float64(n)] of an [int]: the nearest binary64 number,
    ties to even. *)
Definition float64 (n : Z) : float :=
  SF2Prim (binary_normalize prec emax n 0 false).

(** ** Kind tests *)

(** [is] of the source; [is] is reserved here. *)
Definition is_ (obj : Value) (kind : reflect.Kind) : bool :=
  match obj with
  | VNil => false
  | _ => reflect.Kind_eqb (reflect.KindOf obj) kind
  end.

Definition isBool (obj : Value) : bool := is_ obj reflect.Bool.
Definition isString (obj : Value) : bool := is_ obj reflect.String.
Definition isNumber (obj : Value) : bool :=
  is_ obj reflect.Int || is_ obj reflect.Float64.
Definition isPrimitive (obj : Value) : bool :=
  isBool obj || isString obj || isNumber obj.
Definition isMap (obj : Value) : bool := is_ obj reflect.Map.
Definition isArray (obj : Value) : bool := is_ obj reflect.Array.
Definition isSlice (obj : Value) : bool := is_ obj reflect.Slice.
Definition isNil (obj : Value) : bool :=
  match obj with VNil => true | _ => false end.

(** [v == value] on two interfaces: equal dynamic types and equal values;
    comparing two slices, or two maps, panics. *)
Definition interfaceEq (v value : Value) : exec bool :=
  match v, value with
  | VNil, VNil => Ok true
  | VBool a, VBool b => Ok (Bool.eqb a b)
  | VInt a, VInt b => Ok (Z.eqb a b)
  | VFloat a, VFloat b => Ok (PrimFloat.eqb a b)
  | VString a, VString b => Ok (String.eqb a b)
  | VSlice _, VSlice _ => Panic UncomparableType
  | VMap _, VMap _ => Panic UncomparableType
  | _, _ => Ok false
  end.

(** ** The result argument of [Apply]

    [Apply] inspects its third argument by reflection: whether it is a
    pointer, whether the pointer is nil, whether what it points to can be
    set, and the type of what it points to. *)
Inductive TargetType : Type :=
| TFloat64            (* kind Float64 *)
| TString             (* kind String *)
| TBool               (* kind Bool *)
| TInterface          (* interface{} *)
| TInt                (* int *)
| TSlice              (* []interface{} *)
| TMap                (* map[string]interface{} *)
| TOther.             (* any type none of the values above is assignable to *)

Inductive ResultArg : Type :=
| NotPointer
| NilPointer
| Pointer (canSet : bool) (target : TargetType).

(** [reflect.Value.Set] accepts a value that is assignable to the target's
    type. *)
Definition assignable (v : Value) (target : TargetType) : bool :=
  match target, v with
  | TInterface, _ => true
  | TInt, VInt _ => true
  | TSlice, VSlice _ => true
  | TMap, VMap _ => true
  | _, _ => false
  end.

(** What a call of [Apply] leaves behind: the error it returns and the value
    it has stored through the result pointer, if it stored one. *)
Record Outcome : Type := { err : option string; stored : option Value }.

(** ** The evaluator *)

Section Evaluator.

(** [strconv.ParseFloat(s, 64)] and [strconv.FormatFloat(f, 'f', -1, 64)]
    belong to Go's library, and what [int(f)] yields when [f] is a NaN, an
    infinity or beyond the range of [int] depends on the machine. *)
Variable ParseFloat : string -> ParseFloatResult.
Variable FormatFloat : float -> string.
Variable intOverflow : float -> Z.

(** The conversion [int(f)]. *)
Definition toInt (f : float) : Z :=
  match truncate f with
  | Some z => if fits_int z then z else intOverflow f
  | None => intOverflow f
  end.

Definition less (a b : Value) : exec bool :=
  match a with
  | VFloat v =>
      w <- (if isString b
            then s <- asString b ;; Ok (parsedFloat (ParseFloat s))
            else asFloat64 b) ;;
      Ok (float_gt w v)
  | VString v =>
      w <- (if isNumber b
            then f <- asFloat64 b ;; Ok (FormatFloat f)
            else asString b) ;;
      Ok (string_gt w v)
  | _ => Ok false
  end.

Definition equals (a b : Value) : exec bool :=
  match a with
  | VFloat v =>
      w <- (if isString b
            then s <- asString b ;; Ok (parsedFloat (ParseFloat s))
            else asFloat64 b) ;;
      Ok (PrimFloat.eqb v w)
  | VString v =>
      w <- asString b ;;
      Ok (String.eqb v w)
  | _ => Ok false
  end.

Definition hardEquals (a b : Value) : exec bool :=
  let ra := reflect.KindOf a in
  let rb := reflect.KindOf b in
  if negb (reflect.Kind_eqb ra rb) then Ok false
  else equals a b.

Definition between (operator : string) (values : list Value) (data : Value)
  : exec Value :=
  a <- index values 0 ;;
  b <- index values 1 ;;
  c <- index values 2 ;;
  if String.eqb operator "<" then
    r <- and_then (less a b) (less b c) ;; Ok (VBool r)
  else if String.eqb operator "<=" then
    r <- and_then (or_else (less a b) (equals a b))
                  (or_else (less b c) (equals b c)) ;;
    Ok (VBool r)
  else Ok (VBool false).

Definition unary (operator : string) (value : Value) : exec Value :=
  b <- (if isBool value then asBool value else Ok false) ;;
  b <- (if isNumber value
        then f <- asFloat64 value ;; Ok (float_gt f 0)
        else Ok b) ;;
  if String.eqb operator "!" then Ok (VBool (negb b)) else Ok (VBool b).

(** The loop of [_and], on the two variables [r] and [v] it updates. *)
Fixpoint and_loop (values : list Value) (r : bool) (v : float)
  : exec (bool * float) :=
  match values with
  | [] => Ok (r, v)
  | value :: rest =>
      if isBool value then
        b <- asBool value ;;
        and_loop rest (r && b) v
      else
        f <- asFloat64 value ;;
        and_loop rest r (if float_gt f v then f else v)
  end.

Definition _and (values : list Value) : exec Value :=
  rv <- and_loop values true 0 ;;
  let (r, v) := rv in
  if r && float_gt v 0 then Ok (VFloat v) else Ok (VBool r).

Fixpoint _or (values : list Value) : exec Value :=
  match values with
  | [] => Ok (VBool false)
  | value :: rest =>
      t <- (if isBool value then asBool value else Ok false) ;;
      if t then Ok (VBool true)
      else
        p <- (if isNumber value
              then f <- asFloat64 value ;; Ok (float_gt f 0)
              else Ok false) ;;
        if p then Ok value else _or rest
  end.

(** The loop of [_in] over the elements of the haystack. *)
Fixpoint in_loop (value : Value) (values : list Value) : exec bool :=
  match values with
  | [] => Ok false
  | v :: rest =>
      e <- interfaceEq v value ;;
      if e then Ok true else in_loop value rest
  end.

Definition _in (value values : Value) : exec bool :=
  if isString values then
    s <- asString values ;;
    substr <- asString value ;;
    Ok (Contains s substr)
  else
    l <- asSlice values ;;
    in_loop value l.

Definition getVarFromData (value : string) (data originalValue : Value)
  : exec Value :=
  if negb (isMap data) then Ok VNil
  else
    m <- asMap data ;;
    let parsedValue := mapIndex m value in
    parsedValue <-
      (if isNil parsedValue && isSlice originalValue
       then l <- asSlice originalValue ;; index l 1
       else Ok parsedValue) ;;
    if isNil parsedValue then Ok VNil
    else match parsedValue with
         | VInt v => Ok (VFloat (float64 v))
         | v => Ok v
         end.

(** The loop of [getVar] over the parts of the path. *)
Fixpoint getVarLoop (parts : list string) (_data value : Value)
  : exec Value :=
  match parts with
  | [] => Ok _data
  | part :: rest =>
      d <- getVarFromData part _data value ;;
      getVarLoop rest d value
  end.

Definition getVar (value data : Value) : exec Value :=
  if isNil data then Ok value
  else if isSlice value then
    l <- asSlice value ;;
    first <- index l 0 ;;
    parsed <- asString first ;;
    getVarLoop (Split parsed) data value
  else if isNumber value then
    f <- asFloat64 value ;;
    l <- asSlice data ;;
    index l (toInt f)
  else
    parsed <- asString value ;;
    getVarLoop (Split parsed) data value.

Definition operation (operator : string) (values data : Value)
  : exec Value :=
  if String.eqb operator "var" then getVar values data
  else if isPrimitive values then unary operator values
  else
    parsed <- asSlice values ;;
    if Nat.eqb (List.length parsed) 1 then
      v <- index parsed 0 ;;
      b <- asBool v ;;
      unary operator (VBool b)
    else if String.eqb operator "and" then _and parsed
    else if String.eqb operator "or" then _or parsed
    else if String.eqb operator "?:" then
      c <- index parsed 0 ;;
      b <- asBool c ;;
      if b then index parsed 1 else index parsed 2
    else if String.eqb operator "in" then
      a <- index parsed 0 ;;
      b <- index parsed 1 ;;
      r <- _in a b ;; Ok (VBool r)
    else if Nat.eqb (List.length parsed) 3 then between operator parsed data
    else if String.eqb operator "<" then
      a <- index parsed 0 ;;
      b <- index parsed 1 ;;
      r <- less a b ;; Ok (VBool r)
    else if String.eqb operator ">" then
      b <- index parsed 1 ;;
      a <- index parsed 0 ;;
      r <- less b a ;; Ok (VBool r)
    else if String.eqb operator "<=" then
      a <- index parsed 0 ;;
      b <- index parsed 1 ;;
      r <- or_else (less a b) (equals a b) ;; Ok (VBool r)
    else if String.eqb operator ">=" then
      b <- index parsed 1 ;;
      a <- index parsed 0 ;;
      r <- or_else (less b a) (equals a b) ;; Ok (VBool r)
    else if String.eqb operator "===" then
      a <- index parsed 0 ;;
      b <- index parsed 1 ;;
      r <- hardEquals a b ;; Ok (VBool r)
    else if String.eqb operator "!=" then
      a <- index parsed 0 ;;
      b <- index parsed 1 ;;
      r <- equals a b ;; Ok (VBool (negb r))
    else if String.eqb operator "!==" then
      a <- index parsed 0 ;;
      b <- index parsed 1 ;;
      r <- hardEquals a b ;; Ok (VBool (negb r))
    else
      a <- index parsed 0 ;;
      b <- index parsed 1 ;;
      r <- equals a b ;; Ok (VBool r).

(** [apply] visits the first entry a [range] over the rule yields and
    returns from inside the loop; [parseValues] evaluates the operands
    that are maps, from left to right. *)
Fixpoint apply (rules data : Value) {struct rules} : exec Value :=
  match rules with
  | VMap [] => Ok (VBool false)
  | VMap ((operator, values) :: _) =>
      parsed <- parseValues values data ;;
      operation operator parsed data
  | _ => Panic InterfaceConversion
  end
with parseValues (values data : Value) {struct values} : exec Value :=
  if isPrimitive values then Ok values
  else
    match values with
    | VSlice l =>
        parsed <-
          (fix loop (l : list Value) : exec (list Value) :=
             match l with
             | [] => Ok []
             | value :: rest =>
                 v <- (if isMap value then apply value data else Ok value) ;;
                 parsed <- loop rest ;;
                 Ok (v :: parsed)
             end) l ;;
        Ok (VSlice parsed)
    | _ => Panic InterfaceConversion
    end.

Definition convertToResult (target : TargetType) (_result : Value)
  : exec (option Value) :=
  match target with
  | TFloat64 => f <- asFloat64 _result ;; Ok (Some (VFloat f))
  | TString => w <- asString _result ;; Ok (Some (VString w))
  | TBool => b <- asBool _result ;; Ok (Some (VBool b))
  | _ =>
      if isNil _result then Ok None
      else if assignable _result target then Ok (Some _result)
      else Panic ReflectSet
  end.

Definition Apply (rules data : Value) (result : ResultArg)
  : exec Outcome :=
  match result with
  | NotPointer | NilPointer =>
      Ok {| err := Some "Result must be a pointer"; stored := None |}
  | Pointer canSet target =>
      if negb canSet then
        Ok {| err := Some "Result must be addressable"; stored := None |}
      else if isMap rules then
        r <- apply rules data ;;
        w <- convertToResult target r ;;
        Ok {| err := None; stored := w |}
      else
        w <- convertToResult target rules ;;
        Ok {| err := None; stored := w |}
  end.

End Evaluator.

(** ** An instance to run the evaluator on

    [strconv.ParseFloat] and [strconv.FormatFloat] restricted to the
    decimal integers, and the value [int(f)] takes on amd64 when [f] is out
    of range.  The theorems below hold for every instance; the examples
    that need one use this one. *)
Definition decimalParseFloat (s : string) : ParseFloatResult :=
  match NilZero.int_of_string s with
  | Some d => Parsed (float64 (Z.of_int d))
  | None => ErrSyntax
  end.

Definition decimalFormatFloat (f : float) : string :=
  match truncate f with
  | Some z =>
      if PrimFloat.eqb (float64 z) f
      then NilZero.string_of_int (Z.to_int z)
      else EmptyString
  | None => EmptyString
  end.

Definition amd64IntOverflow (_ : float) : Z := (- 2 ^ 63)%Z.

(** ** What the properties are stated with *)

(** What the type switch that ends [getVarFromData] does to a value. *)
Definition normalized (v : Value) : Value :=
  match v with
  | VInt n => VFloat (float64 n)
  | _ => v
  end.

(** A path of one segment: splitting it at the dots leaves it whole. *)
Definition singleSegment (path : string) : Prop := Split path = [path].

(** A [float64] that is not a NaN. *)
Definition isNumeric (f : float) : Prop := Prim2SF f <> S754_nan.

(** The operands [_and] has a case for. *)
Definition boolOrNumber (v : Value) : Prop :=
  match v with
  | VBool _ | VFloat _ => True
  | _ => False
  end.

(** The conjunction of the boolean operands. *)
Definition runningAnd (values : list Value) : bool :=
  forallb (fun v => match v with VBool b => b | _ => true end) values.

(** Whether a number greater than zero is among the operands. *)
Definition anyPositive (values : list Value) : bool :=
  existsb (fun v => match v with VFloat f => PrimFloat.ltb 0 f | _ => false end)
          values.

(** [m] is the greatest number observed, the zero the scan starts from
    included: it is that zero or one of the operands, and neither zero nor
    any operand is greater. *)
Definition maximumObserved (m : float) (values : list Value) : Prop :=
  (m = 0%float \/ In (VFloat m) values)
  /\ PrimFloat.ltb m 0 = false
  /\ forall f, In (VFloat f) values -> PrimFloat.ltb m f = false.

(** Two values are directly equal when they are of one kind and hold the
    same thing; a [float64] is compared as IEEE 754 compares it.  Slices
    and maps are not compared. *)
Definition directlyEqual (v value : Value) : Prop :=
  match v, value with
  | VNil, VNil => True
  | VBool a, VBool b => a = b
  | VInt a, VInt b => a = b
  | VFloat a, VFloat b => PrimFloat.eqb a b = true
  | VString a, VString b => a = b
  | _, _ => False
  end.

(** The kinds [==] compares. *)
Definition comparable (value : Value) : bool :=
  negb (isSlice value || isMap value).

(** A result argument [Apply] accepts: a pointer that is not nil, to
    something that can be set. *)
Definition validResult (result : ResultArg) : bool :=
  match result with
  | Pointer true _ => true
  | _ => false
  end.

Section Notions.

Variable ParseFloat : string -> ParseFloatResult.
Variable FormatFloat : float -> string.
Variable intOverflow : float -> Z.

(** The numeric coercion of a second operand: a number is taken as it is, a
    string is parsed, and a string that does not parse counts as zero.  No
    other kind has one. *)
Definition numericCoercion (b : Value) : option float :=
  match b with
  | VFloat w => Some w
  | VString t =>
      Some match ParseFloat t with
           | Parsed x => x
           | ErrRange x => x
           | ErrSyntax => 0%float
           end
  | _ => None
  end.

(** The string coercion of a second operand: a number is written in decimal
    form, a string is taken as it is. *)
Definition stringCoercion (b : Value) : option string :=
  match b with
  | VFloat w => Some (FormatFloat w)
  | VString t => Some t
  | _ => None
  end.

(** The loop of [parseValues], as a function of its own. *)
Definition parseLoop (data : Value) : list Value -> exec (list Value) :=
  fix loop (l : list Value) : exec (list Value) :=
    match l with
    | [] => Ok []
    | value :: rest =>
        v <- (if isMap value
              then apply ParseFloat FormatFloat intOverflow value data
              else Ok value) ;;
        parsed <- loop rest ;;
        Ok (v :: parsed)
    end.

End Notions.

(** ** What the further properties are stated with *)

(** What [unary] and [_or] take for true: the boolean true and a number
    greater than zero. *)
Definition truthy (v : Value) : bool :=
  match v with
  | VBool b => b
  | VFloat f => PrimFloat.ltb 0 f
  | _ => false
  end.

Definition isInt (v : Value) : bool := is_ v reflect.Int.

(** An operand [_or] passes over: not true, and not an [int], which would
    fail [value.(float64)]. *)
Definition passedOver (v : Value) : bool := negb (truthy v) && negb (isInt v).

(** Where a list of keys leads from a value: each key is looked up in the
    map reached so far, and the walk stops with nothing when the value
    reached is not a map or holds nothing under the key. *)
Fixpoint resolve (data : Value) (keys : list string) : option Value :=
  match keys with
  | [] => Some data
  | key :: rest =>
      match data with
      | VMap m =>
          if isNil (mapIndex m key) then None
          else resolve (normalized (mapIndex m key)) rest
      | _ => None
      end
  end.

(** The values [convertToResult] can store in a target. *)
Definition storable (target : TargetType) (v : Value) : bool :=
  match target, v with
  | TFloat64, VFloat _ => true
  | TString, VString _ => true
  | TBool, VBool _ => true
  | (TFloat64 | TString | TBool), _ => false
  | _, VNil => true
  | _, _ => assignable v target
  end.

(** * Properties *)

(** ** One step of the evaluator *)

Section Dispatch.

Variable ParseFloat : string -> ParseFloatResult.
Variable FormatFloat : float -> string.
Variable intOverflow : float -> Z.

Lemma apply_entry (operator : string) (values data : Value)
  (entries : list (string * Value)) :
  apply ParseFloat FormatFloat intOverflow
        (VMap ((operator, values) :: entries)) data
  = (parsed <- parseValues ParseFloat FormatFloat intOverflow values data ;;
     operation ParseFloat FormatFloat intOverflow operator parsed data).
Proof. reflexivity. Qed.

Lemma parseValues_primitive (values data : Value) :
  isPrimitive values = true ->
  parseValues ParseFloat FormatFloat intOverflow values data = Ok values.
Proof.
  destruct values; intros H; try reflexivity; discriminate H.
Qed.

Lemma parseValues_slice (l : list Value) (data : Value) :
  parseValues ParseFloat FormatFloat intOverflow (VSlice l) data
  = (parsed <- parseLoop ParseFloat FormatFloat intOverflow data l ;;
     Ok (VSlice parsed)).
Proof. reflexivity. Qed.

(** Operands that are not maps are literals: [parseValues] copies them. *)
Lemma parseValues_literals (l : list Value) (data : Value) :
  forallb (fun value => negb (isMap value)) l = true ->
  parseValues ParseFloat FormatFloat intOverflow (VSlice l) data
  = Ok (VSlice l).
Proof.
  intros H. rewrite parseValues_slice.
  enough (E : parseLoop ParseFloat FormatFloat intOverflow data l = Ok l)
    by now rewrite E.
  induction l as [|value rest IH]; [reflexivity|].
  simpl in H. apply andb_prop in H as [Hvalue Hrest].
  apply negb_true_iff in Hvalue. simpl.
  rewrite Hvalue, (IH Hrest). reflexivity.
Qed.

Lemma operation_var (values data : Value) :
  operation ParseFloat FormatFloat intOverflow "var" values data
  = getVar intOverflow values data.
Proof. reflexivity. Qed.

(** A single operand is asserted to be a boolean and handed to [unary],
    whatever the operator, [var] apart. *)
Lemma operation_single_operand (operator : string) (v data : Value) :
  String.eqb operator "var" = false ->
  operation ParseFloat FormatFloat intOverflow operator (VSlice [v]) data
  = (b <- asBool v ;; unary operator (VBool b)).
Proof.
  intros H. unfold operation. rewrite H. reflexivity.
Qed.

(** With two operands or more [and] is [_and]; with two operands [in] is
    [_in], [<] is [less] and [==], the last branch, is [equals]. *)
Lemma operation_and (a b data : Value) (rest : list Value) :
  operation ParseFloat FormatFloat intOverflow "and" (VSlice (a :: b :: rest)) data
  = _and (a :: b :: rest).
Proof. reflexivity. Qed.

Lemma operation_in (a b data : Value) :
  operation ParseFloat FormatFloat intOverflow "in" (VSlice [a; b]) data
  = (r <- _in a b ;; Ok (VBool r)).
Proof. reflexivity. Qed.

Lemma operation_less (a b data : Value) :
  operation ParseFloat FormatFloat intOverflow "<" (VSlice [a; b]) data
  = (r <- less ParseFloat FormatFloat a b ;; Ok (VBool r)).
Proof. reflexivity. Qed.

Lemma operation_equals (a b data : Value) :
  operation ParseFloat FormatFloat intOverflow "==" (VSlice [a; b]) data
  = (r <- equals ParseFloat a b ;; Ok (VBool r)).
Proof. reflexivity. Qed.

(** An operator [operation] has no branch for is read as [==]: on two
    arrays, which [equals] has no case for, the answer is false. *)
Lemma operation_unknown_operator_on_arrays (l1 l2 : list Value) (data : Value) :
  operation ParseFloat FormatFloat intOverflow "merge"
            (VSlice [VSlice l1; VSlice l2]) data
  = Ok (VBool false).
Proof. reflexivity. Qed.

(** A rule [{"var": operand}] whose operand is a primitive is resolved by
    [getVar] on that operand. *)
Lemma apply_var_primitive (operand data : Value) :
  isPrimitive operand = true ->
  apply ParseFloat FormatFloat intOverflow (VMap [("var", operand)]) data
  = getVar intOverflow operand data.
Proof.
  intros H. rewrite apply_entry, (parseValues_primitive _ _ H). reflexivity.
Qed.

End Dispatch.

(** ** Variable resolution *)

Lemma Split_cons (s : string) :
  exists part parts, Split s = part :: parts.
Proof.
  induction s as [|c s [part [parts IH]]]; simpl.
  - now exists EmptyString, [].
  - destruct (Ascii.eqb c "."); [now eauto|].
    rewrite IH. now eauto.
Qed.

Lemma getVarFromData_not_map (part : string) (data value : Value) :
  isMap data = false -> getVarFromData part data value = Ok VNil.
Proof.
  intros H. unfold getVarFromData. now rewrite H.
Qed.

(** Once a segment has produced nil, every further segment produces nil. *)
Lemma getVarLoop_nil (parts : list string) (value : Value) :
  getVarLoop parts VNil value = Ok VNil.
Proof.
  induction parts as [|part parts IH]; simpl; [reflexivity|exact IH].
Qed.

(** The same holds from any value that is not a map, when a segment is
    left. *)
Lemma getVarLoop_not_map (part : string) (parts : list string) (d value : Value) :
  isMap d = false -> getVarLoop (part :: parts) d value = Ok VNil.
Proof.
  intros Hd. simpl. rewrite (getVarFromData_not_map _ _ _ Hd).
  apply getVarLoop_nil.
Qed.

Lemma getVarFromData_string_path (part path : string) (m : list (string * Value)) :
  getVarFromData part (VMap m) (VString path) = Ok (normalized (mapIndex m part)).
Proof.
  unfold getVarFromData. simpl.
  destruct (mapIndex m part); reflexivity.
Qed.

Lemma getVarFromData_missing_default
  (part : string) (m : list (string * Value)) (first d : Value) (rest : list Value) :
  mapIndex m part = VNil ->
  getVarFromData part (VMap m) (VSlice (first :: d :: rest)) = Ok (normalized d).
Proof.
  intros H. unfold getVarFromData. simpl. rewrite H. simpl.
  destruct d; reflexivity.
Qed.

Lemma index_in_range (l : list Value) (i : Z) :
  (0 <= i < Z.of_nat (List.length l))%Z ->
  index l i = Ok (nth (Z.to_nat i) l VNil).
Proof.
  intros [Hlo Hhi]. unfold index.
  destruct (Z.ltb_spec i 0) as [H|_]; [lia|].
  rewrite (nth_error_nth' l VNil) by lia. reflexivity.
Qed.

Lemma index_out_of_range (l : list Value) (i : Z) :
  ~ (0 <= i < Z.of_nat (List.length l))%Z ->
  index l i = Panic IndexOutOfRange.
Proof.
  intros H. unfold index.
  destruct (Z.ltb_spec i 0) as [_|Hlo]; [reflexivity|].
  destruct (nth_error l (Z.to_nat i)) eqn:E; [|reflexivity].
  exfalso. apply H. split; [exact Hlo|].
  assert (Z.to_nat i < List.length l)%nat
    by (apply nth_error_Some; congruence).
  lia.
Qed.

Lemma getVarFromData_found
  (part : string) (m : list (string * Value)) (value : Value) :
  isNil (mapIndex m part) = false ->
  getVarFromData part (VMap m) value = Ok (normalized (mapIndex m part)).
Proof.
  intros H. unfold getVarFromData. simpl. rewrite H. simpl. rewrite H.
  destruct (mapIndex m part); reflexivity.
Qed.

Section Resolution.

Variable ParseFloat : string -> ParseFloatResult.
Variable FormatFloat : float -> string.
Variable intOverflow : float -> Z.

(** The default of [[path, default]] is what a missing single-segment path
    resolves to. *)
Lemma getVar_default_single_segment
  (path : string) (m : list (string * Value)) (d : Value) (rest : list Value) :
  singleSegment path -> mapIndex m path = VNil ->
  getVar intOverflow (VSlice (VString path :: d :: rest)) (VMap m)
  = Ok (normalized d).
Proof.
  intros Hsegment Hm. unfold getVar. simpl. rewrite Hsegment. simpl.
  now rewrite getVarFromData_missing_default.
Qed.

(** When the first of several segments is missing, the default takes its
    place and the next segment is looked up in the default: unless the
    default is a map, the result is nil. *)
Lemma getVar_default_lost_after_first_segment
  (path part next : string) (parts : list string)
  (m : list (string * Value)) (d : Value) (rest : list Value) :
  Split path = part :: next :: parts ->
  mapIndex m part = VNil -> isMap d = false ->
  getVar intOverflow (VSlice (VString path :: d :: rest)) (VMap m) = Ok VNil.
Proof.
  intros Hsplit Hm Hd. unfold getVar. simpl. rewrite Hsplit.
  cbn [getVarLoop].
  rewrite (getVarFromData_missing_default _ _ _ _ _ Hm). cbn [bind].
  apply getVarLoop_not_map. now destruct d.
Qed.

(** When the first of several segments holds a value that is neither nil
    nor a map, the next segment produces nil, default or not. *)
Lemma getVar_default_lost_through_scalar
  (path part next : string) (parts : list string)
  (m : list (string * Value)) (d : Value) (rest : list Value) :
  Split path = part :: next :: parts ->
  isNil (mapIndex m part) = false -> isMap (mapIndex m part) = false ->
  getVar intOverflow (VSlice (VString path :: d :: rest)) (VMap m) = Ok VNil.
Proof.
  intros Hsplit Hnil Hmap. unfold getVar. simpl. rewrite Hsplit.
  cbn [getVarLoop].
  rewrite (getVarFromData_found _ _ _ Hnil). cbn [bind].
  apply getVarLoop_not_map. now destruct (mapIndex m part).
Qed.

(** C1 (the code on dotted paths): a rule [{"var": [path, d]}] whose path
    has two segments or more, whose first segment is missing from the data
    and whose default [d] is not a map, evaluates to nil and not to [d]:
    the default replaces the missing segment, and the next segment is then
    looked up in the default.  [{"var": ["missing.path", 42]}] against
    [{}] is the case in point. *)
Theorem var_default_lost_on_dotted_path
  (path part next : string) (parts : list string)
  (m : list (string * Value)) (d : Value)
  (Hpath : Split path = part :: next :: parts)
  (Hmissing : mapIndex m part = VNil)
  (Hdefault : isMap d = false) :
  apply ParseFloat FormatFloat intOverflow
        (VMap [("var", VSlice [VString path; d])]) (VMap m)
  = Ok VNil.
Proof.
  rewrite apply_entry, parseValues_literals
    by (cbn; now rewrite Hdefault).
  cbn [bind]. rewrite operation_var.
  now apply (getVar_default_lost_after_first_segment path part next parts).
Qed.

(** C7 (amended): the empty path is split into the single segment [""],
    which is looked up as a key like any other.  With nil data the operand
    [""] itself comes back; against a map the value stored under the key
    [""] comes back (nil when there is none); against any other context, a
    scalar in particular, the result is nil and not the context. *)
Theorem var_empty_path_is_looked_up_as_key (data : Value) :
  apply ParseFloat FormatFloat intOverflow (VMap [("var", VString "")]) data
  = Ok match data with
       | VNil => VString ""
       | VMap m => normalized (mapIndex m "")
       | _ => VNil
       end.
Proof.
  rewrite apply_var_primitive by reflexivity.
  destruct data; try reflexivity.
  unfold getVar. cbn [isNil isSlice isNumber is_ reflect.KindOf
    reflect.Kind_eqb orb asString bind Split getVarLoop].
  now rewrite getVarFromData_string_path.
Qed.

(** What [Apply] does with the value of a rule when the result points to
    an [interface{}]. *)
Lemma Apply_interface (rules data v : Value) :
  apply ParseFloat FormatFloat intOverflow rules data = Ok v ->
  isMap rules = true ->
  Apply ParseFloat FormatFloat intOverflow rules data (Pointer true TInterface)
  = Ok {| err := None; stored := if isNil v then None else Some v |}.
Proof.
  intros Hv Hrules. unfold Apply. cbn [negb]. rewrite Hrules, Hv.
  now destruct v.
Qed.

(** C8 (amended): a call of [Apply] with nil data returns without error,
    and [getVar] then hands back its operand, whatever it is: [{"var": path}]
    evaluates to the path, [{"var": [path, d]}] to the whole array.  Against
    the empty map [{"var": path}] evaluates to nil for every string path,
    and [{"var": [key, d]}] with a single-segment path and a literal default
    evaluates to that default. *)
Theorem var_without_data_or_against_empty_map
  (operand : Value) (path : string) :
  getVar intOverflow operand VNil = Ok operand
  /\ apply ParseFloat FormatFloat intOverflow
           (VMap [("var", VString path)]) VNil = Ok (VString path)
  /\ Apply ParseFloat FormatFloat intOverflow
           (VMap [("var", VString path)]) VNil (Pointer true TInterface)
     = Ok {| err := None; stored := Some (VString path) |}
  /\ apply ParseFloat FormatFloat intOverflow
           (VMap [("var", VString path)]) (VMap []) = Ok VNil
  /\ Apply ParseFloat FormatFloat intOverflow
           (VMap [("var", VString path)]) (VMap []) (Pointer true TInterface)
     = Ok {| err := None; stored := None |}
  /\ forall (key : string) (d : Value),
       singleSegment key -> isMap d = false ->
       apply ParseFloat FormatFloat intOverflow
             (VMap [("var", VSlice [VString key; d])]) VNil
       = Ok (VSlice [VString key; d])
       /\ Apply ParseFloat FormatFloat intOverflow
                (VMap [("var", VSlice [VString key; d])]) VNil
                (Pointer true TInterface)
          = Ok {| err := None; stored := Some (VSlice [VString key; d]) |}
       /\ apply ParseFloat FormatFloat intOverflow
                (VMap [("var", VSlice [VString key; d])]) (VMap [])
          = Ok (normalized d)
       /\ Apply ParseFloat FormatFloat intOverflow
                (VMap [("var", VSlice [VString key; d])]) (VMap [])
                (Pointer true TInterface)
          = Ok {| err := None;
                  stored := if isNil (normalized d) then None
                            else Some (normalized d) |}.
Proof.
  assert (Hnil :
    apply ParseFloat FormatFloat intOverflow
          (VMap [("var", VString path)]) VNil = Ok (VString path))
    by now rewrite apply_var_primitive.
  assert (Hempty :
    apply ParseFloat FormatFloat intOverflow
          (VMap [("var", VString path)]) (VMap []) = Ok VNil).
  { rewrite apply_var_primitive by reflexivity.
    unfold getVar. cbn [isNil isSlice isNumber is_ reflect.KindOf
      reflect.Kind_eqb orb asString bind].
    destruct (Split_cons path) as [part [parts ->]]. cbn [getVarLoop].
    rewrite getVarFromData_string_path. apply getVarLoop_nil. }
  split; [reflexivity|]. split; [exact Hnil|].
  split; [exact (Apply_interface _ _ _ Hnil eq_refl)|].
  split; [exact Hempty|].
  split; [exact (Apply_interface _ _ _ Hempty eq_refl)|].
  intros key d Hsegment Hliteral.
  assert (Hparsed : forall data,
    parseValues ParseFloat FormatFloat intOverflow
                (VSlice [VString key; d]) data
    = Ok (VSlice [VString key; d]))
    by (intros data; apply parseValues_literals; cbn; now rewrite Hliteral).
  assert (Hwhole :
    apply ParseFloat FormatFloat intOverflow
          (VMap [("var", VSlice [VString key; d])]) VNil
    = Ok (VSlice [VString key; d]))
    by (rewrite apply_entry, Hparsed; reflexivity).
  assert (Hdefault :
    apply ParseFloat FormatFloat intOverflow
          (VMap [("var", VSlice [VString key; d])]) (VMap [])
    = Ok (normalized d)).
  { rewrite apply_entry, Hparsed. cbn [bind]. rewrite operation_var.
    now apply getVar_default_single_segment. }
  split; [exact Hwhole|].
  split; [exact (Apply_interface _ _ _ Hwhole eq_refl)|].
  split; [exact Hdefault|].
  exact (Apply_interface _ _ _ Hdefault eq_refl).
Qed.

(** The numeric form of [var] on a context that is a slice: an index
    expression, which panics out of range. *)
Lemma getVar_numeric_slice (f : float) (l : list Value) :
  getVar intOverflow (VFloat f) (VSlice l) = index l (toInt intOverflow f).
Proof. reflexivity. Qed.

(** On a context that is neither nil nor a slice the type assertion
    [data.([]interface{})] panics. *)
Lemma getVar_numeric_not_slice (f : float) (data : Value) :
  isNil data = false -> isSlice data = false ->
  getVar intOverflow (VFloat f) data = Panic InterfaceConversion.
Proof.
  destruct data; intros Hnil Hslice; try reflexivity; discriminate.
Qed.

(** An [int] operand passes [isNumber] and fails [value.(float64)]. *)
Lemma getVar_int_operand (n : Z) (data : Value) :
  isNil data = false ->
  getVar intOverflow (VInt n) data = Panic InterfaceConversion.
Proof.
  destruct data; intros Hnil; try reflexivity; discriminate.
Qed.

(** C9: [{"var": f}] with a number [f] against a slice returns the element
    at the index [int(f)] just as the slice holds it, whenever that index
    is in range; an index out of range and a context that is not a slice
    both make the evaluation panic. *)
Theorem var_numeric_index_unguarded (f : float) (l : list Value)
  (Hrange : (0 <= toInt intOverflow f < Z.of_nat (List.length l))%Z) :
  apply ParseFloat FormatFloat intOverflow (VMap [("var", VFloat f)]) (VSlice l)
  = Ok (nth (Z.to_nat (toInt intOverflow f)) l VNil)
  /\ (exists g l',
        apply ParseFloat FormatFloat intOverflow
              (VMap [("var", VFloat g)]) (VSlice l')
        = Panic IndexOutOfRange)
  /\ (exists g data,
        apply ParseFloat FormatFloat intOverflow
              (VMap [("var", VFloat g)]) data
        = Panic InterfaceConversion).
Proof.
  split; [|split].
  - rewrite apply_var_primitive, getVar_numeric_slice by reflexivity.
    now apply index_in_range.
  - exists 2%float, [VInt 1; VInt 7]. reflexivity.
  - exists 0%float, (VMap [("a", VFloat 1)]). reflexivity.
Qed.

End Resolution.

Lemma var_default_lost_on_dotted_path_witness :
  apply decimalParseFloat decimalFormatFloat amd64IntOverflow
        (VMap [("var", VSlice [VString "missing.path"; VFloat 42])]) (VMap [])
  = Ok VNil.
Proof.
  apply (var_default_lost_on_dotted_path
           decimalParseFloat decimalFormatFloat amd64IntOverflow
           "missing.path" "missing" "path" [] [] (VFloat 42));
    reflexivity.
Defined.

(** C7 (as stated, refuted): against the scalar context [5] the rule
    [{"var": ""}] does not yield [5]. *)
Lemma var_empty_path_scalar_counterexample :
  apply decimalParseFloat decimalFormatFloat amd64IntOverflow
        (VMap [("var", VString "")]) (VFloat 5) <> Ok (VFloat 5).
Proof. vm_compute. discriminate. Qed.

(** C8 (as stated, refuted): with nil data the rule [{"var": "a"}], which
    supplies no default, yields the path ["a"] and not nil. *)
Lemma var_nil_data_counterexample :
  apply decimalParseFloat decimalFormatFloat amd64IntOverflow
        (VMap [("var", VString "a")]) VNil = Ok (VString "a")
  /\ Ok (VString "a") <> Ok VNil.
Proof. split; [reflexivity|discriminate]. Qed.

Lemma var_without_data_or_against_empty_map_witness :
  Apply decimalParseFloat decimalFormatFloat amd64IntOverflow
        (VMap [("var", VString "a.b")]) VNil (Pointer true TInterface)
  = Ok {| err := None; stored := Some (VString "a.b") |}
  /\ apply decimalParseFloat decimalFormatFloat amd64IntOverflow
           (VMap [("var", VString "a.b")]) (VMap []) = Ok VNil
  /\ apply decimalParseFloat decimalFormatFloat amd64IntOverflow
           (VMap [("var", VSlice [VString "a"; VFloat 42])]) VNil
     = Ok (VSlice [VString "a"; VFloat 42])
  /\ apply decimalParseFloat decimalFormatFloat amd64IntOverflow
           (VMap [("var", VSlice [VString "a"; VFloat 42])]) (VMap [])
     = Ok (normalized (VFloat 42)).
Proof.
  destruct (var_without_data_or_against_empty_map
              decimalParseFloat decimalFormatFloat amd64IntOverflow
              VNil "a.b")
    as (_ & _ & HApply & _ & _ & Harray).
  destruct (var_without_data_or_against_empty_map
              decimalParseFloat decimalFormatFloat amd64IntOverflow
              VNil "a.b")
    as (_ & _ & _ & Hempty & _ & _).
  destruct (Harray "a" (VFloat 42) eq_refl eq_refl)
    as (Hwhole & _ & Hdefault & _).
  repeat split; assumption.
Defined.

Lemma var_numeric_index_unguarded_witness :
  apply decimalParseFloat decimalFormatFloat amd64IntOverflow
        (VMap [("var", VFloat 1)]) (VSlice [VInt 1; VInt 7])
  = Ok (VInt 7).
Proof.
  refine (proj1 (var_numeric_index_unguarded
                   decimalParseFloat decimalFormatFloat amd64IntOverflow
                   1%float [VInt 1; VInt 7] _)).
  vm_compute. split; [discriminate|reflexivity].
Defined.

(** ** The order of [float64] *)

Ltac compare_cases :=
  repeat match goal with
  | |- context [Z.compare ?a ?b] => destruct (Z.compare_spec a b)
  | H : context [Z.compare ?a ?b] |- _ => destruct (Z.compare_spec a b)
  | |- context [Pos.compare_cont Eq ?a ?b] =>
      change (Pos.compare_cont Eq a b) with (Pos.compare a b);
      destruct (Pos.compare_spec a b)
  | H : context [Pos.compare_cont Eq ?a ?b] |- _ =>
      change (Pos.compare_cont Eq a b) with (Pos.compare a b) in H;
      destruct (Pos.compare_spec a b)
  end.

Lemma SFltb_trans (x y z : spec_float) :
  SFltb x y = true -> SFltb y z = true -> SFltb x z = true.
Proof.
  unfold SFltb, SFcompare.
  destruct x as [[|]|[|]| |[|] mx ex], y as [[|]|[|]| |[|] my ey],
    z as [[|]|[|]| |[|] mz ez];
    try discriminate; try reflexivity;
    intros Hxy Hyz; compare_cases; simpl in *;
    try discriminate; try reflexivity; subst; lia.
Qed.

Lemma SFltb_cotrans (x y z : spec_float) :
  y <> S754_nan -> SFltb x z = true -> SFltb x y = true \/ SFltb y z = true.
Proof.
  unfold SFltb, SFcompare.
  destruct x as [[|]|[|]| |[|] mx ex], y as [[|]|[|]| |[|] my ey],
    z as [[|]|[|]| |[|] mz ez];
    try discriminate; try congruence;
    try (intros; now left); try (intros; now right);
    intros Hy Hxz; compare_cases; simpl in *;
    try discriminate; try (now left); try (now right); subst; lia.
Qed.

Lemma SFltb_irrefl (x : spec_float) : SFltb x x = false.
Proof.
  unfold SFltb, SFcompare.
  destruct x as [[|]|[|]| |[|] mx ex]; try reflexivity;
    rewrite Z.compare_refl;
    change (Pos.compare_cont Eq mx mx) with (Pos.compare mx mx);
    now rewrite Pos.compare_refl.
Qed.

Lemma SFltb_not_nan (x y : spec_float) : SFltb x y = true -> y <> S754_nan.
Proof.
  intros H ->. unfold SFltb, SFcompare in H. destruct x; discriminate H.
Qed.

Lemma ltb_trans (x y z : float) :
  PrimFloat.ltb x y = true -> PrimFloat.ltb y z = true ->
  PrimFloat.ltb x z = true.
Proof. rewrite !ltb_spec. apply SFltb_trans. Qed.

Lemma ltb_cotrans (x y z : float) :
  isNumeric y -> PrimFloat.ltb x z = true ->
  PrimFloat.ltb x y = true \/ PrimFloat.ltb y z = true.
Proof. rewrite !ltb_spec. apply SFltb_cotrans. Qed.

Lemma ltb_irrefl (x : float) : PrimFloat.ltb x x = false.
Proof. rewrite ltb_spec. apply SFltb_irrefl. Qed.

Lemma ltb_isNumeric (x y : float) : PrimFloat.ltb x y = true -> isNumeric y.
Proof. rewrite ltb_spec. apply SFltb_not_nan. Qed.

(** ** Properties of [and] *)

Lemma and_loop_invariant (values : list Value) :
  Forall boolOrNumber values ->
  forall (r : bool) (v : float), isNumeric v ->
  exists m,
    and_loop values r v = Ok (r && runningAnd values, m)
    /\ isNumeric m
    /\ (m = v \/ In (VFloat m) values)
    /\ PrimFloat.ltb m v = false
    /\ forall f, In (VFloat f) values -> PrimFloat.ltb m f = false.
Proof.
  induction 1 as [|value rest Hvalue _ IH]; intros r v Hv.
  - exists v. simpl. rewrite andb_true_r.
    repeat split; auto using ltb_irrefl. intros f [].
  - destruct value as [| b | | f | | |]; try contradiction.
    + destruct (IH (r && b) v Hv) as (m & Hloop & Hm & Hin & Hlow & Hup).
      exists m. simpl. rewrite Hloop, andb_assoc.
      repeat split; auto.
      * destruct Hin; auto.
      * intros f [Hf|Hf]; [discriminate Hf|auto].
    + simpl. unfold float_gt. destruct (PrimFloat.ltb v f) eqn:Hvf.
      * destruct (IH r f (ltb_isNumeric _ _ Hvf))
          as (m & Hloop & Hm & Hin & Hlow & Hup).
        exists m. repeat split; auto.
        -- destruct Hin as [->|Hin]; auto.
        -- destruct (PrimFloat.ltb m v) eqn:Hmv; [|reflexivity].
           now rewrite (ltb_trans _ _ _ Hmv Hvf) in Hlow.
        -- intros g [Hg|Hg]; [|auto].
           injection Hg as Hg. now subst g.
      * destruct (IH r v Hv) as (m & Hloop & Hm & Hin & Hlow & Hup).
        exists m. repeat split; auto.
        -- destruct Hin; auto.
        -- intros g [Hg|Hg]; [|auto].
           injection Hg as Hg. subst g.
           destruct (PrimFloat.ltb m f) eqn:Hmf; [|reflexivity].
           destruct (ltb_cotrans _ v _ Hv Hmf); congruence.
Qed.

(** C3: on operands that are booleans and numbers, [_and] returns the
    greatest number observed when the conjunction of the boolean operands
    holds and a number greater than zero is among the operands, and returns
    that conjunction otherwise; in the first case the number returned is one
    of the operands and is greater than zero. *)
Theorem and_conjunction_and_maximum (values : list Value)
  (Hoperands : Forall boolOrNumber values) :
  exists m : float,
    maximumObserved m values
    /\ _and values
       = Ok (if runningAnd values && anyPositive values
             then VFloat m
             else VBool (runningAnd values))
    /\ (anyPositive values = true ->
        In (VFloat m) values /\ PrimFloat.ltb 0 m = true)
    /\ (runningAnd values = true -> anyPositive values = true ->
        _and values = Ok (VFloat m)).
Proof.
  assert (H0 : isNumeric 0) by (vm_compute; discriminate).
  destruct (and_loop_invariant values Hoperands true 0%float H0)
    as (m & Hloop & Hm & Hin & Hlow & Hup).
  assert (Hpos : PrimFloat.ltb 0 m = anyPositive values).
  { destruct (anyPositive values) eqn:Hany.
    - apply existsb_exists in Hany as (v & Hv & Hf).
      destruct v as [| | | f | | |]; try discriminate Hf.
      destruct (ltb_cotrans _ m _ Hm Hf) as [H|H]; [exact H|].
      now rewrite (Hup f Hv) in H.
    - destruct (PrimFloat.ltb 0 m) eqn:E; [|reflexivity].
      destruct Hin as [->|Hin]; [now rewrite ltb_irrefl in E|].
      rewrite <- Hany. symmetry. apply existsb_exists.
      exists (VFloat m). now split. }
  assert (Hresult :
    _and values
    = Ok (if runningAnd values && anyPositive values
          then VFloat m
          else VBool (runningAnd values))).
  { unfold _and. rewrite Hloop. cbn [bind andb]. unfold float_gt.
    rewrite Hpos. now destruct (runningAnd values && anyPositive values). }
  exists m. split; [|split; [|split]].
  - repeat split; auto.
  - exact Hresult.
  - intros Hany. rewrite Hany in Hpos. split; [|exact Hpos].
    destruct Hin as [->|Hin]; [now rewrite ltb_irrefl in Hpos|exact Hin].
  - intros Hand Hany. now rewrite Hresult, Hand, Hany.
Qed.

(** An operand of another kind fails the assertion [value.(float64)]. *)
Lemma and_other_operand_panics (value : Value) (rest : list Value) :
  ~ boolOrNumber value -> _and (value :: rest) = Panic InterfaceConversion.
Proof.
  destruct value; simpl; intros H; try reflexivity; now destruct H.
Qed.

(** A number that is not greater than zero does not make the conjunction
    false: it is passed over. *)
Lemma and_passes_over_zero :
  _and [VBool true; VFloat 0; VFloat 5] = Ok (VFloat 5)
  /\ _and [VBool true; VFloat 0] = Ok (VBool true).
Proof. split; reflexivity. Qed.

Lemma and_conjunction_and_maximum_witness :
  exists m : float,
    maximumObserved m [VBool true; VFloat 3; VBool true; VFloat 7]
    /\ _and [VBool true; VFloat 3; VBool true; VFloat 7]
       = Ok (if runningAnd [VBool true; VFloat 3; VBool true; VFloat 7]
                && anyPositive [VBool true; VFloat 3; VBool true; VFloat 7]
             then VFloat m
             else VBool (runningAnd [VBool true; VFloat 3; VBool true; VFloat 7]))
    /\ (anyPositive [VBool true; VFloat 3; VBool true; VFloat 7] = true ->
        In (VFloat m) [VBool true; VFloat 3; VBool true; VFloat 7]
        /\ PrimFloat.ltb 0 m = true)
    /\ (runningAnd [VBool true; VFloat 3; VBool true; VFloat 7] = true ->
        anyPositive [VBool true; VFloat 3; VBool true; VFloat 7] = true ->
        _and [VBool true; VFloat 3; VBool true; VFloat 7] = Ok (VFloat m)).
Proof.
  apply (and_conjunction_and_maximum
           [VBool true; VFloat 3; VBool true; VFloat 7]).
  repeat constructor.
Defined.


(** ** Properties of [in] *)

Lemma prefix_append (a s : string) :
  prefix a s = true <-> exists q, s = (a ++ q)%string.
Proof.
  revert s. induction a as [|c a IH]; intros s.
  - split; intros _; [now exists s|now destruct s].
  - destruct s as [|d s]; simpl.
    + split; [discriminate|]. intros [q Hq]. discriminate Hq.
    + destruct (ascii_dec c d) as [->|Hcd].
      * rewrite IH. split; intros [q Hq]; exists q; congruence.
      * split; [discriminate|]. intros [q Hq]. congruence.
Qed.

Lemma Contains_unfold (s substr : string) :
  Contains s substr
  = prefix substr s
    || match s with
       | EmptyString => false
       | String _ s' => Contains s' substr
       end.
Proof. destruct s; reflexivity. Qed.

(** [Contains] finds exactly the substrings. *)
Lemma Contains_substring (s substr : string) :
  Contains s substr = true <-> exists p q, s = (p ++ substr ++ q)%string.
Proof.
  split.
  - induction s as [|c s IH]; rewrite Contains_unfold; intros H;
      apply orb_true_iff in H as [H|H]; try discriminate H.
    + apply prefix_append in H as [q Hq]. now exists EmptyString, q.
    + apply prefix_append in H as [q Hq]. now exists EmptyString, q.
    + destruct (IH H) as (p & q & ->). now exists (String c p), q.
  - intros (p & q & ->). induction p as [|c p IH]; rewrite Contains_unfold.
    + apply orb_true_iff. left. apply prefix_append. now exists q.
    + apply orb_true_iff. right. exact IH.
Qed.

Lemma directlyEqual_same_kind (v value : Value) :
  directlyEqual v value -> reflect.KindOf v = reflect.KindOf value.
Proof.
  destruct v, value; simpl; intros H; try reflexivity; contradiction.
Qed.

Lemma interfaceEq_comparable (v value : Value) :
  comparable value = true ->
  exists b, interfaceEq v value = Ok b /\ (b = true <-> directlyEqual v value).
Proof.
  intros Hvalue.
  destruct v, value; try discriminate Hvalue; simpl;
    eexists; (split; [reflexivity|]);
    try (split; [discriminate|contradiction]).
  - split; auto.
  - apply Bool.eqb_true_iff.
  - apply Z.eqb_eq.
  - reflexivity.
  - apply String.eqb_eq.
Qed.

Lemma in_loop_membership (value : Value) (values : list Value) :
  comparable value = true ->
  exists b,
    in_loop value values = Ok b
    /\ (b = true <-> exists v, In v values /\ directlyEqual v value).
Proof.
  intros Hvalue. induction values as [|v rest (b & Hloop & IH)]; simpl.
  - exists false. split; [reflexivity|].
    split; [discriminate|]. now intros (v & [] & _).
  - destruct (interfaceEq_comparable v value Hvalue) as (e & -> & He).
    simpl. destruct e.
    + exists true. split; [reflexivity|]. split; [|reflexivity].
      intros _. exists v. split; [now left|now apply He].
    + exists b. split; [exact Hloop|]. rewrite IH.
      split; intros (w & Hw & Heq); exists w.
      * split; [now right|exact Heq].
      * destruct Hw as [<-|Hw]; [|now split].
        apply He in Heq. discriminate Heq.
Qed.

Section Membership.

Variable ParseFloat : string -> ParseFloatResult.
Variable FormatFloat : float -> string.
Variable intOverflow : float -> Z.

(** C6: in a string [_in] looks for the needle, which has to be a string,
    as a substring; in a slice it looks for an element directly equal to
    the needle, which is then of the kind of the needle.  So 2 is in
    [[1,2,3]] and "2" is not. *)
Theorem in_substring_or_membership (needle : Value)
  (Hneedle : comparable needle = true) :
  (forall substr haystack : string,
      needle = VString substr ->
      exists b,
        _in needle (VString haystack) = Ok b
        /\ (b = true <-> exists p q, haystack = (p ++ substr ++ q)%string))
  /\ (forall haystack : string,
        isString needle = false ->
        _in needle (VString haystack) = Panic InterfaceConversion)
  /\ (forall haystack : list Value,
        exists b,
          _in needle (VSlice haystack) = Ok b
          /\ (b = true <->
              exists v, In v haystack
                        /\ directlyEqual v needle
                        /\ reflect.KindOf v = reflect.KindOf needle))
  /\ apply ParseFloat FormatFloat intOverflow
           (VMap [("in", VSlice [VFloat 2; VSlice [VFloat 1; VFloat 2; VFloat 3]])])
           (VMap [])
     = Ok (VBool true)
  /\ apply ParseFloat FormatFloat intOverflow
           (VMap [("in", VSlice [VString "2"; VSlice [VFloat 1; VFloat 2; VFloat 3]])])
           (VMap [])
     = Ok (VBool false)
  /\ apply ParseFloat FormatFloat intOverflow
           (VMap [("in", VSlice [VString "c"; VString "abcd"])]) (VMap [])
     = Ok (VBool true).
Proof.
  split; [|split; [|split; [|repeat split]]].
  - intros substr haystack ->. exists (Contains haystack substr).
    split; [reflexivity|apply Contains_substring].
  - intros haystack H. destruct needle; try reflexivity; discriminate H.
  - intros haystack.
    destruct (in_loop_membership needle haystack Hneedle) as (b & Hloop & Hb).
    exists b. split; [exact Hloop|]. rewrite Hb.
    split; intros (v & Hv & Heq); exists v.
    + repeat split; auto using directlyEqual_same_kind.
    + now split.
Qed.

End Membership.

Lemma in_substring_or_membership_witness :
  exists b,
    _in (VFloat 2) (VSlice [VFloat 1; VFloat 2; VFloat 3]) = Ok b
    /\ (b = true <->
        exists v, In v [VFloat 1; VFloat 2; VFloat 3]
                  /\ directlyEqual v (VFloat 2)
                  /\ reflect.KindOf v = reflect.KindOf (VFloat 2)).
Proof.
  destruct (in_substring_or_membership
              decimalParseFloat decimalFormatFloat amd64IntOverflow
              (VFloat 2) eq_refl) as (_ & _ & Hslice & _).
  apply Hslice.
Defined.

(** ** The operator name [merge] *)

Section Merge.

Variable ParseFloat : string -> ParseFloatResult.
Variable FormatFloat : float -> string.
Variable intOverflow : float -> Z.

(** C5 (amended): [operation] has no branch for [merge].  With two array
    operands or more the name falls through to the chained comparison,
    which knows [<] and [<=] only, or to [equals], which has no case for an
    array: the rule evaluates to false and not to the concatenation of the
    operands. *)
Theorem merge_of_arrays_is_false
  (first second : list Value) (others : list (list Value)) (data : Value) :
  apply ParseFloat FormatFloat intOverflow
        (VMap [("merge",
                VSlice (VSlice first :: VSlice second :: map VSlice others))])
        data
  = Ok (VBool false).
Proof.
  rewrite apply_entry, parseValues_literals.
  - destruct others as [|third [|fourth others]]; reflexivity.
  - cbn. induction others as [|third others IH]; [reflexivity|exact IH].
Qed.

End Merge.

(** C5 (as stated, refuted): [{"merge": [[["a","b"]],[["c","d"]]]}]
    evaluates to false, not to [[["a","b"],["c","d"]]]. *)
Lemma merge_example_counterexample :
  apply decimalParseFloat decimalFormatFloat amd64IntOverflow
        (VMap [("merge",
                VSlice [VSlice [VSlice [VString "a"; VString "b"]];
                        VSlice [VSlice [VString "c"; VString "d"]]])])
        (VMap [])
  = Ok (VBool false)
  /\ Ok (VBool false)
     <> Ok (VSlice [VSlice [VString "a"; VString "b"];
                    VSlice [VString "c"; VString "d"]]).
Proof. split; [reflexivity|discriminate]. Qed.

(** ** Properties of the comparison primitives *)

Section Comparison.

Variable ParseFloat : string -> ParseFloatResult.
Variable FormatFloat : float -> string.
Variable intOverflow : float -> Z.

(** C2: when the first operand is a number, [less] says whether the numeric
    coercion of the second is greater; when the first operand is a string,
    it says whether the string coercion of the second is greater. *)
Theorem less_coerces_second_operand (b : Value) (w : float) (t : string)
  (Hnumeric : numericCoercion ParseFloat b = Some w)
  (Hstring : stringCoercion FormatFloat b = Some t) :
  (forall v : float,
      less ParseFloat FormatFloat (VFloat v) b = Ok (PrimFloat.ltb v w))
  /\ (forall s : string,
        less ParseFloat FormatFloat (VString s) b = Ok (String.ltb s t)).
Proof.
  destruct b; try discriminate Hnumeric; simpl in Hnumeric, Hstring;
    injection Hnumeric as <-; injection Hstring as <-;
    split; intros; reflexivity.
Qed.

(** [less] on all operands: outside the two coercions the second operand
    fails a type assertion, and a first operand that is neither a
    [float64] nor a string makes [less] false. *)
Lemma less_cases (a b : Value) :
  less ParseFloat FormatFloat a b
  = match a with
    | VFloat v =>
        match numericCoercion ParseFloat b with
        | Some w => Ok (PrimFloat.ltb v w)
        | None => Panic InterfaceConversion
        end
    | VString s =>
        match stringCoercion FormatFloat b with
        | Some t => Ok (String.ltb s t)
        | None => Panic InterfaceConversion
        end
    | _ => Ok false
    end.
Proof. destruct a, b; reflexivity. Qed.

(** An [int] that has not been converted to [float64] is not compared: as
    first operand it makes [less] false, as second operand of a number or of
    a string it fails the assertion [b.(float64)]. *)
Lemma less_int_operand (n : Z) (v : float) (s : string) (b : Value) :
  less ParseFloat FormatFloat (VInt n) b = Ok false
  /\ less ParseFloat FormatFloat (VFloat v) (VInt n) = Panic InterfaceConversion
  /\ less ParseFloat FormatFloat (VString s) (VInt n) = Panic InterfaceConversion.
Proof. repeat split. Qed.

Lemma equals_string_not_string (s : string) (b : Value) :
  isString b = false ->
  equals ParseFloat (VString s) b = Panic InterfaceConversion.
Proof.
  destruct b; intros H; try reflexivity; discriminate H.
Qed.

(** C4 (amended): [equals] of a string and of any value that is not a
    string panics on the assertion [b.(string)]; and so does every call of
    [Apply] that compares them, the second operand being that value written
    in the rule or a rule that evaluates to it: the call returns neither
    false nor an error. *)
Theorem equals_string_with_other_kind_panics
  (s : string) (b : Value) (Hkind : isString b = false) :
  equals ParseFloat (VString s) b = Panic InterfaceConversion
  /\ forall (x data : Value) (target : TargetType),
       (if isMap x
        then apply ParseFloat FormatFloat intOverflow x data
        else Ok x) = Ok b ->
       Apply ParseFloat FormatFloat intOverflow
             (VMap [("==", VSlice [VString s; x])]) data (Pointer true target)
       = Panic InterfaceConversion.
Proof.
  split; [now apply equals_string_not_string|].
  intros x data target Hoperand.
  unfold Apply. cbn [negb isMap is_ reflect.KindOf reflect.Kind_eqb].
  rewrite apply_entry, parseValues_slice.
  cbn [parseLoop isMap is_ reflect.KindOf reflect.Kind_eqb].
  rewrite Hoperand. cbn [bind]. rewrite operation_equals.
  now rewrite equals_string_not_string.
Qed.

End Comparison.

Lemma less_coerces_second_operand_witness :
  less decimalParseFloat decimalFormatFloat (VFloat (-1)) (VString "x")
  = Ok (PrimFloat.ltb (-1) 0)
  /\ less decimalParseFloat decimalFormatFloat (VString "a") (VString "x")
     = Ok (String.ltb "a" "x").
Proof.
  destruct (less_coerces_second_operand
              decimalParseFloat decimalFormatFloat (VString "x") 0%float "x"
              eq_refl eq_refl) as [Hnumber Hstring].
  split; [apply Hnumber|apply Hstring].
Defined.

(** C4 (as stated, refuted): the call of [Apply] on [{"==": ["a", 1]}]
    panics, so it returns nothing, and no error in particular. *)
Lemma equals_string_number_counterexample :
  Apply decimalParseFloat decimalFormatFloat amd64IntOverflow
        (VMap [("==", VSlice [VString "a"; VFloat 1])]) (VMap [])
        (Pointer true TInterface)
  = Panic InterfaceConversion
  /\ ~ (exists o,
          Apply decimalParseFloat decimalFormatFloat amd64IntOverflow
                (VMap [("==", VSlice [VString "a"; VFloat 1])]) (VMap [])
                (Pointer true TInterface)
          = Ok o).
Proof.
  split; [reflexivity|]. intros [o H]. discriminate H.
Qed.

Lemma equals_string_with_other_kind_panics_witness :
  equals decimalParseFloat (VString "a") (VMap [("k", VFloat 1)])
  = Panic InterfaceConversion
  /\ Apply decimalParseFloat decimalFormatFloat amd64IntOverflow
           (VMap [("==", VSlice [VString "a"; VMap [("var", VString "m")]])])
           (VMap [("m", VMap [("k", VFloat 1)])])
           (Pointer true TBool)
     = Panic InterfaceConversion
  /\ Apply decimalParseFloat decimalFormatFloat amd64IntOverflow
           (VMap [("==", VSlice [VString "a"; VFloat 1])]) (VMap [])
           (Pointer true TBool)
     = Panic InterfaceConversion.
Proof.
  destruct (equals_string_with_other_kind_panics
              decimalParseFloat decimalFormatFloat amd64IntOverflow
              "a" (VMap [("k", VFloat 1)]) eq_refl) as [Hequals Hmap].
  destruct (equals_string_with_other_kind_panics
              decimalParseFloat decimalFormatFloat amd64IntOverflow
              "a" (VFloat 1) eq_refl) as [_ Hnumber].
  split; [exact Hequals|]. split.
  - apply Hmap. reflexivity.
  - apply Hnumber. reflexivity.
Defined.

(** ** Properties of [Apply] *)

Section Entry.

Variable ParseFloat : string -> ParseFloatResult.
Variable FormatFloat : float -> string.
Variable intOverflow : float -> Z.

(** Without a result argument it accepts [Apply] returns an error, and
    looks neither at the rule nor at the data. *)
Lemma Apply_invalid_result (rules data : Value) (result : ResultArg) :
  validResult result = false ->
  exists message,
    Apply ParseFloat FormatFloat intOverflow rules data result
    = Ok {| err := Some message; stored := None |}.
Proof.
  destruct result as [| |[|] target]; intros H; try discriminate H;
    simpl; eauto.
Qed.

(** C10: when [Apply] returns, the error is nil exactly when the result
    argument is a non-nil pointer to something that can be set; the rule and
    the data have no part in it. *)
Theorem Apply_error_only_from_result_argument
  (rules data : Value) (result : ResultArg) (o : Outcome)
  (Hreturns : Apply ParseFloat FormatFloat intOverflow rules data result = Ok o) :
  (err o = None <-> validResult result = true)
  /\ (err o <> None -> stored o = None).
Proof.
  destruct result as [| |[|] target]; simpl in Hreturns.
  - injection Hreturns as <-. simpl. repeat split; discriminate.
  - injection Hreturns as <-. simpl. repeat split; discriminate.
  - assert (err o = None) as E.
    { destruct (isMap rules).
      - destruct (apply _ _ _ rules data); [|discriminate]. simpl in Hreturns.
        destruct (convertToResult target a); [|discriminate].
        now injection Hreturns as <-.
      - destruct (convertToResult target rules); [|discriminate].
        now injection Hreturns as <-. }
    rewrite E. repeat split; congruence.
  - injection Hreturns as <-. simpl. repeat split; discriminate.
Qed.

End Entry.

Lemma Apply_error_only_from_result_argument_witness :
  Apply decimalParseFloat decimalFormatFloat amd64IntOverflow
        (VMap [("<", VSlice [VFloat 1; VFloat 2])]) (VMap [])
        (Pointer true TBool)
  = Ok {| err := None; stored := Some (VBool true) |}
  /\ (err {| err := None; stored := Some (VBool true) |} = None
      <-> validResult (Pointer true TBool) = true)
  /\ (err {| err := None; stored := Some (VBool true) |} <> None ->
      stored {| err := None; stored := Some (VBool true) |} = None).
Proof.
  split; [reflexivity|].
  apply (Apply_error_only_from_result_argument
           decimalParseFloat decimalFormatFloat amd64IntOverflow
           (VMap [("<", VSlice [VFloat 1; VFloat 2])]) (VMap [])
           (Pointer true TBool)).
  reflexivity.
Defined.

(** * Further properties *)

(** ** Paths *)

(** Joining the parts of a path with dots gives the path back. *)
Lemma concat_Split (s : string) : String.concat "." (Split s) = s.
Proof.
  induction s as [|c s IH]; [reflexivity|]. cbn [Split].
  destruct (Split_cons s) as (part & parts & Hs). rewrite Hs in *.
  destruct (Ascii.eqb_spec c ".") as [->|_].
  - rewrite <- IH. reflexivity.
  - destruct parts as [|next parts]; rewrite <- IH; reflexivity.
Qed.

Lemma singleSegment_String (c : ascii) (s : string) :
  singleSegment (String c s) -> c <> "."%char /\ singleSegment s.
Proof.
  unfold singleSegment. simpl.
  destruct (Ascii.eqb_spec c ".") as [->|Hc]; [discriminate|].
  destruct (Split_cons s) as (part & parts & Hs). rewrite Hs.
  intros H. injection H as -> ->. now split.
Qed.

(** A part holds no dot: it is a single segment. *)
Lemma Split_singleSegment (s : string) : Forall singleSegment (Split s).
Proof.
  induction s as [|c s IH]; simpl.
  - now repeat constructor.
  - destruct (Ascii.eqb_spec c ".") as [->|Hc].
    + constructor; [reflexivity|exact IH].
    + destruct (Split_cons s) as (part & parts & Hs). rewrite Hs in *.
      inversion IH as [|? ? Hpart Hparts]; subst.
      constructor; [|exact Hparts].
      unfold singleSegment in *. simpl.
      destruct (Ascii.eqb_spec c ".") as [->|_]; [contradiction|].
      now rewrite Hpart.
Qed.

Lemma Split_segment_dot (key rest : string) :
  singleSegment key ->
  Split (key ++ String "." rest) = key :: Split rest.
Proof.
  induction key as [|c key IH]; intros Hkey; [reflexivity|].
  apply singleSegment_String in Hkey as [Hc Hkey]. simpl.
  destruct (Ascii.eqb_spec c ".") as [->|_]; [contradiction|].
  now rewrite (IH Hkey).
Qed.

Lemma Split_concat (key : string) (keys : list string) :
  Forall singleSegment (key :: keys) ->
  Split (String.concat "." (key :: keys)) = key :: keys.
Proof.
  revert key. induction keys as [|next keys IH]; intros key Hkeys;
    inversion Hkeys as [|? ? Hkey Hrest]; subst.
  - exact Hkey.
  - change (String.concat "." (key :: next :: keys))
      with (key ++ String "." (String.concat "." (next :: keys)))%string.
    now rewrite (Split_segment_dot _ _ Hkey), (IH next Hrest).
Qed.

(** [strings.Split] and the joining of the parts undo each other: the
    parts of a path hold no dot and joined with dots give the path back, and
    a path made by joining keys that hold no dot splits into those keys. *)
Theorem Split_concat_round_trip (path key : string) (keys : list string)
  (Hkeys : Forall singleSegment (key :: keys)) :
  String.concat "." (Split path) = path
  /\ Forall singleSegment (Split path)
  /\ Split (String.concat "." (key :: keys)) = key :: keys.
Proof.
  split; [apply concat_Split|].
  split; [apply Split_singleSegment|now apply Split_concat].
Qed.

Lemma Split_concat_round_trip_witness :
  String.concat "." (Split "a..b") = "a..b"
  /\ Forall singleSegment (Split "a..b")
  /\ Split (String.concat "." ["user"; "address"; "city"])
     = ["user"; "address"; "city"].
Proof.
  apply (Split_concat_round_trip "a..b" "user" ["address"; "city"]).
  repeat constructor.
Defined.

(** ** Variable resolution along a path *)

Lemma getVarLoop_app (xs ys : list string) (d value : Value) :
  getVarLoop (xs ++ ys) d value
  = (d' <- getVarLoop xs d value ;; getVarLoop ys d' value).
Proof.
  revert d. induction xs as [|x xs IH]; intros d; [reflexivity|].
  simpl. destruct (getVarFromData x d value); [apply IH|reflexivity].
Qed.

(** Where every key is present the loop arrives where the keys lead,
    whatever the operand of [var] is. *)
Lemma getVarLoop_resolve (keys : list string) (value : Value) :
  forall data r,
  resolve data keys = Some r -> getVarLoop keys data value = Ok r.
Proof.
  induction keys as [|key keys IH]; intros data r H; simpl in *.
  - now injection H as ->.
  - destruct data; try discriminate H.
    destruct (isNil (mapIndex m key)) eqn:Hnil; [discriminate H|].
    rewrite (getVarFromData_found _ _ _ Hnil). cbn [bind]. now apply IH.
Qed.

(** Where a key is missing, a string path leads to nil. *)
Lemma getVarLoop_unresolved (keys : list string) (path : string) :
  forall data,
  resolve data keys = None -> getVarLoop keys data (VString path) = Ok VNil.
Proof.
  induction keys as [|key keys IH]; intros data H; [discriminate H|].
  destruct data; try (now apply getVarLoop_not_map).
  simpl in H. cbn [getVarLoop]. rewrite getVarFromData_string_path.
  cbn [bind]. destruct (isNil (mapIndex m key)) eqn:Hnil.
  - destruct (mapIndex m key); try discriminate Hnil. apply getVarLoop_nil.
  - now apply IH.
Qed.

Section Paths.

Variable ParseFloat : string -> ParseFloatResult.
Variable FormatFloat : float -> string.
Variable intOverflow : float -> Z.

(** A rule [{"var": path}] with a string path never panics: against data
    that is not nil it yields the value the parts of the path lead to, and
    nil where a part is missing or is looked up in something that is not a
    map. *)
Theorem var_string_path_walks_keys (path : string) (data : Value)
  (Hdata : isNil data = false) :
  apply ParseFloat FormatFloat intOverflow (VMap [("var", VString path)]) data
  = Ok match resolve data (Split path) with
       | Some r => r
       | None => VNil
       end.
Proof.
  rewrite apply_var_primitive by reflexivity.
  unfold getVar. rewrite Hdata.
  cbn [isSlice isNumber is_ reflect.KindOf reflect.Kind_eqb orb asString bind].
  destruct (resolve data (Split path)) as [r|] eqn:H.
  - now apply getVarLoop_resolve.
  - now apply getVarLoop_unresolved.
Qed.

(** The default of [{"var": [path, d]}] is used in one case and unused in
    another: where every key of the path is present the value found is
    returned, whatever its kind, and the default is not looked at; where
    the value found is a map that holds nothing under one more key, the
    path with that key added yields the default, an [int] as a
    [float64]. *)
Theorem var_default_used_for_last_key_only
  (key : string) (keys : list string) (data r d : Value)
  (Hkeys : Forall singleSegment (key :: keys))
  (Hfound : resolve data (key :: keys) = Some r) :
  getVar intOverflow
         (VSlice [VString (String.concat "." (key :: keys)); d]) data
  = Ok r
  /\ forall (m : list (string * Value)) (last : string),
       r = VMap m -> singleSegment last -> mapIndex m last = VNil ->
       getVar intOverflow
              (VSlice [VString (String.concat "." (key :: keys ++ [last])); d])
              data
       = Ok (normalized d).
Proof.
  assert (Hdata : isNil data = false).
  { simpl in Hfound. now destruct data. }
  unfold getVar. rewrite Hdata.
  cbn [isSlice is_ reflect.KindOf reflect.Kind_eqb asSlice index Z.ltb
       Z.compare Z.to_nat nth_error asString bind].
  split.
  - rewrite (Split_concat _ _ Hkeys). now apply getVarLoop_resolve.
  - intros m last Hmap Hlast Hmissing.
    rewrite (Split_concat key (keys ++ [last])).
    + change (key :: keys ++ [last]) with ((key :: keys) ++ [last]).
      rewrite getVarLoop_app, (getVarLoop_resolve _ _ _ _ Hfound).
      cbn [bind getVarLoop]. subst r.
      now rewrite (getVarFromData_missing_default _ _ _ _ _ Hmissing).
    + change (key :: keys ++ [last]) with ((key :: keys) ++ [last]).
      apply Forall_app. split; [exact Hkeys|now constructor].
Qed.

End Paths.

Lemma var_string_path_walks_keys_witness :
  apply decimalParseFloat decimalFormatFloat amd64IntOverflow
        (VMap [("var", VString "user.age")])
        (VMap [("user", VMap [("name", VString "Ann"); ("age", VInt 30)])])
  = Ok (VFloat 30).
Proof.
  apply (var_string_path_walks_keys
           decimalParseFloat decimalFormatFloat amd64IntOverflow
           "user.age"
           (VMap [("user", VMap [("name", VString "Ann"); ("age", VInt 30)])])).
  reflexivity.
Defined.

Lemma var_default_used_for_last_key_only_witness :
  getVar amd64IntOverflow
         (VSlice [VString "user.age"; VInt 7])
         (VMap [("user", VMap [("age", VInt 30)])])
  = Ok (VFloat 30)
  /\ getVar amd64IntOverflow
            (VSlice [VString "user.age"; VInt 7])
            (VMap [("user", VMap [("name", VString "Ann")])])
     = Ok (VFloat 7).
Proof.
  split.
  - refine (proj1 (var_default_used_for_last_key_only
                     amd64IntOverflow "user" ["age"]
                     (VMap [("user", VMap [("age", VInt 30)])])
                     (VFloat 30) (VInt 7) _ eq_refl)).
    repeat constructor.
  - refine (proj2 (var_default_used_for_last_key_only
                     amd64IntOverflow "user" []
                     (VMap [("user", VMap [("name", VString "Ann")])])
                     (VMap [("name", VString "Ann")]) (VInt 7) _ eq_refl)
                  [("name", VString "Ann")] "age" eq_refl eq_refl eq_refl).
    repeat constructor.
Defined.

(** ** Comparisons as orders *)

Lemma SFleb_ltb_eqb (x y : spec_float) :
  SFleb x y = SFltb x y || SFeqb x y.
Proof.
  unfold SFleb, SFltb, SFeqb. now destruct (SFcompare x y) as [[| |]|].
Qed.

Lemma SFeqb_sym (x y : spec_float) : SFeqb x y = SFeqb y x.
Proof.
  unfold SFeqb, SFcompare.
  destruct x as [[|]|[|]| |[|] mx ex], y as [[|]|[|]| |[|] my ey];
    try reflexivity; compare_cases; simpl;
    try reflexivity; subst; lia.
Qed.

(** Of two numbers that are not NaN exactly one is the case: the first is
    less, they are equal, the second is less. *)
Lemma SFcompare_trichotomy (x y : spec_float) :
  x <> S754_nan -> y <> S754_nan ->
  (SFltb x y = true /\ SFeqb x y = false /\ SFltb y x = false)
  \/ (SFltb x y = false /\ SFeqb x y = true /\ SFltb y x = false)
  \/ (SFltb x y = false /\ SFeqb x y = false /\ SFltb y x = true).
Proof.
  unfold SFltb, SFeqb, SFcompare.
  destruct x as [[|]|[|]| |[|] mx ex], y as [[|]|[|]| |[|] my ey];
    intros Hx Hy; try congruence; simpl; auto;
    compare_cases; simpl; auto; subst; lia.
Qed.

Lemma string_compare_refl (s : string) : String.compare s s = Eq.
Proof.
  induction s as [|c s IH]; [reflexivity|]. simpl.
  assert (Ascii.compare c c = Eq) as ->; [|exact IH].
  unfold Ascii.compare. apply N.compare_refl.
Qed.

Lemma string_trichotomy (s t : string) :
  (String.ltb s t = true /\ String.eqb s t = false /\ String.ltb t s = false)
  \/ (String.ltb s t = false /\ String.eqb s t = true /\ String.ltb t s = false)
  \/ (String.ltb s t = false /\ String.eqb s t = false /\ String.ltb t s = true).
Proof.
  unfold String.ltb. rewrite (String.compare_antisym t s).
  destruct (String.compare s t) eqn:H; simpl.
  - apply String.compare_eq_iff in H as ->. rewrite String.eqb_refl. auto.
  - left. repeat split.
    destruct (String.eqb_spec s t) as [->|]; [|reflexivity].
    now rewrite string_compare_refl in H.
  - right. right. repeat split.
    destruct (String.eqb_spec s t) as [->|]; [|reflexivity].
    now rewrite string_compare_refl in H.
Qed.

Lemma eqb_false_of_not_In (operator name : string) (names : list string) :
  ~ In operator names -> In name names -> String.eqb operator name = false.
Proof.
  intros Hnot Hin. destruct (String.eqb_spec operator name) as [->|];
    [contradiction|reflexivity].
Qed.

Section Orders.

Variable ParseFloat : string -> ParseFloatResult.
Variable FormatFloat : float -> string.
Variable intOverflow : float -> Z.

(** On two numbers no comparison panics, and the operators that the source
    puts together from [less] and [equals] are the comparisons of IEEE 754:
    [<=] is less-or-equal, [>=] is greater-or-equal, [!=] is the negation of
    [==], and [===] and [!==] agree with [==] and [!=]. *)
Theorem comparison_operators_on_numbers (a b : float) (data : Value) :
  operation ParseFloat FormatFloat intOverflow "<"
            (VSlice [VFloat a; VFloat b]) data = Ok (VBool (PrimFloat.ltb a b))
  /\ operation ParseFloat FormatFloat intOverflow ">"
               (VSlice [VFloat a; VFloat b]) data = Ok (VBool (PrimFloat.ltb b a))
  /\ operation ParseFloat FormatFloat intOverflow "<="
               (VSlice [VFloat a; VFloat b]) data = Ok (VBool (PrimFloat.leb a b))
  /\ operation ParseFloat FormatFloat intOverflow ">="
               (VSlice [VFloat a; VFloat b]) data = Ok (VBool (PrimFloat.leb b a))
  /\ operation ParseFloat FormatFloat intOverflow "=="
               (VSlice [VFloat a; VFloat b]) data = Ok (VBool (PrimFloat.eqb a b))
  /\ operation ParseFloat FormatFloat intOverflow "!="
               (VSlice [VFloat a; VFloat b]) data
     = Ok (VBool (negb (PrimFloat.eqb a b)))
  /\ operation ParseFloat FormatFloat intOverflow "==="
               (VSlice [VFloat a; VFloat b]) data = Ok (VBool (PrimFloat.eqb a b))
  /\ operation ParseFloat FormatFloat intOverflow "!=="
               (VSlice [VFloat a; VFloat b]) data
     = Ok (VBool (negb (PrimFloat.eqb a b))).
Proof.
  assert (Hle : forall x y,
             PrimFloat.ltb x y || PrimFloat.eqb x y = PrimFloat.leb x y).
  { intros x y. rewrite ltb_spec, eqb_spec, leb_spec.
    symmetry. apply SFleb_ltb_eqb. }
  assert (Hge : PrimFloat.ltb b a || PrimFloat.eqb a b = PrimFloat.leb b a).
  { rewrite <- Hle. f_equal. rewrite !eqb_spec. apply SFeqb_sym. }
  assert (Hor : forall x y : bool,
             (r <- or_else (Ok x) (Ok y) ;; Ok (VBool r)) = Ok (VBool (x || y)))
    by (now intros [|] y).
  repeat split; try reflexivity.
  - rewrite <- Hle, <- Hor. reflexivity.
  - rewrite <- Hge, <- Hor. reflexivity.
Qed.

(** Of two numbers that are not NaN exactly one of [<], [==] and [>]
    holds. *)
Theorem number_comparison_trichotomy (a b : float) (data : Value)
  (Ha : isNumeric a) (Hb : isNumeric b) :
  exists lt eq gt : bool,
    operation ParseFloat FormatFloat intOverflow "<"
              (VSlice [VFloat a; VFloat b]) data = Ok (VBool lt)
    /\ operation ParseFloat FormatFloat intOverflow "=="
                 (VSlice [VFloat a; VFloat b]) data = Ok (VBool eq)
    /\ operation ParseFloat FormatFloat intOverflow ">"
                 (VSlice [VFloat a; VFloat b]) data = Ok (VBool gt)
    /\ ((lt = true /\ eq = false /\ gt = false)
        \/ (lt = false /\ eq = true /\ gt = false)
        \/ (lt = false /\ eq = false /\ gt = true)).
Proof.
  exists (PrimFloat.ltb a b), (PrimFloat.eqb a b), (PrimFloat.ltb b a).
  repeat split; try reflexivity.
  rewrite !ltb_spec, eqb_spec. now apply SFcompare_trichotomy.
Qed.

(** Of two strings exactly one of [<], [==] and [>] holds, and none of the
    three panics. *)
Theorem string_comparison_trichotomy (s t : string) (data : Value) :
  exists lt eq gt : bool,
    operation ParseFloat FormatFloat intOverflow "<"
              (VSlice [VString s; VString t]) data = Ok (VBool lt)
    /\ operation ParseFloat FormatFloat intOverflow "=="
                 (VSlice [VString s; VString t]) data = Ok (VBool eq)
    /\ operation ParseFloat FormatFloat intOverflow ">"
                 (VSlice [VString s; VString t]) data = Ok (VBool gt)
    /\ ((lt = true /\ eq = false /\ gt = false)
        \/ (lt = false /\ eq = true /\ gt = false)
        \/ (lt = false /\ eq = false /\ gt = true)).
Proof.
  exists (String.ltb s t), (String.eqb s t), (String.ltb t s).
  repeat split; try reflexivity. apply string_trichotomy.
Qed.

(** The chained comparison of three numbers: [<] holds when both steps
    hold, and then the first number is less than the third; when the first
    step fails the third operand is not looked at, whatever it is. *)
Theorem chained_less_on_numbers (a b : float) (c data : Value) :
  (forall c' : float,
      c = VFloat c' ->
      operation ParseFloat FormatFloat intOverflow "<"
                (VSlice [VFloat a; VFloat b; c]) data
      = Ok (VBool (PrimFloat.ltb a b && PrimFloat.ltb b c'))
      /\ (PrimFloat.ltb a b && PrimFloat.ltb b c' = true ->
          operation ParseFloat FormatFloat intOverflow "<"
                    (VSlice [VFloat a; c]) data
          = Ok (VBool true)))
  /\ (PrimFloat.ltb a b = false ->
      operation ParseFloat FormatFloat intOverflow "<"
                (VSlice [VFloat a; VFloat b; c]) data
      = Ok (VBool false)).
Proof.
  assert (Hchain :
    operation ParseFloat FormatFloat intOverflow "<"
              (VSlice [VFloat a; VFloat b; c]) data
    = (r <- and_then (Ok (PrimFloat.ltb a b))
                     (less ParseFloat FormatFloat (VFloat b) c) ;;
       Ok (VBool r))) by reflexivity.
  split.
  - intros c' ->. split.
    + rewrite Hchain. now destruct (PrimFloat.ltb a b).
    + intros H. apply andb_prop in H as [Hab Hbc].
      change (operation ParseFloat FormatFloat intOverflow "<"
                        (VSlice [VFloat a; VFloat c']) data)
        with (@Ok Value (VBool (PrimFloat.ltb a c'))).
      now rewrite (ltb_trans _ _ _ Hab Hbc).
  - intros Hab. rewrite Hchain, Hab. reflexivity.
Qed.

(** With three operands only [var], [and], [or], [?:], [in], [<] and [<=]
    have a meaning: every other operator, [>], [>=] and [==] among them,
    yields false, whatever the operands are, and does not panic. *)
Theorem three_operands_other_operator_false
  (operator : string) (a b c data : Value)
  (Hoperator : ~ In operator ["var"; "and"; "or"; "?:"; "in"; "<"; "<="]) :
  operation ParseFloat FormatFloat intOverflow operator
            (VSlice [a; b; c]) data
  = Ok (VBool false).
Proof.
  assert (Hno : forall name,
             In name ["var"; "and"; "or"; "?:"; "in"; "<"; "<="] ->
             String.eqb operator name = false)
    by (intros name; now apply eqb_false_of_not_In).
  unfold operation, between.
  rewrite !Hno by (simpl; tauto). reflexivity.
Qed.

End Orders.

Lemma number_comparison_trichotomy_witness :
  exists lt eq gt : bool,
    operation decimalParseFloat decimalFormatFloat amd64IntOverflow "<"
              (VSlice [VFloat 1; VFloat 2]) VNil = Ok (VBool lt)
    /\ operation decimalParseFloat decimalFormatFloat amd64IntOverflow "=="
                 (VSlice [VFloat 1; VFloat 2]) VNil = Ok (VBool eq)
    /\ operation decimalParseFloat decimalFormatFloat amd64IntOverflow ">"
                 (VSlice [VFloat 1; VFloat 2]) VNil = Ok (VBool gt)
    /\ ((lt = true /\ eq = false /\ gt = false)
        \/ (lt = false /\ eq = true /\ gt = false)
        \/ (lt = false /\ eq = false /\ gt = true)).
Proof.
  apply (number_comparison_trichotomy
           decimalParseFloat decimalFormatFloat amd64IntOverflow
           1%float 2%float VNil);
    vm_compute; discriminate.
Defined.

Lemma three_operands_other_operator_false_witness :
  operation decimalParseFloat decimalFormatFloat amd64IntOverflow ">"
            (VSlice [VFloat 3; VFloat 2; VFloat 1]) (VMap [])
  = Ok (VBool false).
Proof.
  apply (three_operands_other_operator_false
           decimalParseFloat decimalFormatFloat amd64IntOverflow
           ">" (VFloat 3) (VFloat 2) (VFloat 1) (VMap [])).
  simpl. intros H.
  repeat (destruct H as [H|H]; [discriminate H|]). exact H.
Defined.

Lemma chained_less_on_numbers_witness :
  operation decimalParseFloat decimalFormatFloat amd64IntOverflow "<"
            (VSlice [VFloat 1; VFloat 2; VFloat 3]) VNil
  = Ok (VBool (PrimFloat.ltb 1 2 && PrimFloat.ltb 2 3))
  /\ operation decimalParseFloat decimalFormatFloat amd64IntOverflow "<"
               (VSlice [VFloat 2; VFloat 1; VNil]) VNil
     = Ok (VBool false).
Proof.
  split.
  - exact (proj1 (proj1 (chained_less_on_numbers
                           decimalParseFloat decimalFormatFloat
                           amd64IntOverflow
                           1%float 2%float (VFloat 3) VNil) 3%float eq_refl)).
  - apply (proj2 (chained_less_on_numbers
                    decimalParseFloat decimalFormatFloat amd64IntOverflow
                    2%float 1%float VNil VNil)).
    reflexivity.
Defined.

(** ** Equality *)

Section Equality.

Variable ParseFloat : string -> ParseFloatResult.
Variable FormatFloat : float -> string.
Variable intOverflow : float -> Z.

(** [equals] answers true in two cases only: a number first and a second
    operand whose numeric coercion is equal to it, or the same string
    twice.  Two booleans, two nils, two arrays are never equal. *)
Theorem equals_true_exactly (a b : Value) :
  equals ParseFloat a b = Ok true
  <-> (exists v w, a = VFloat v
                   /\ numericCoercion ParseFloat b = Some w
                   /\ PrimFloat.eqb v w = true)
      \/ (exists s, a = VString s /\ b = VString s).
Proof.
  split.
  - destruct a as [| | | v | s | |]; try discriminate.
    + destruct b as [| | | w | t | |]; try discriminate; simpl; intros H;
        injection H as H; left; eauto.
    + destruct b as [| | | | t | |]; try discriminate; simpl; intros H.
      injection H as H. apply String.eqb_eq in H as ->. right. eauto.
  - intros [(v & w & -> & Hb & Hvw)|(s & -> & ->)].
    + destruct b as [| | | w' | t | |]; try discriminate Hb;
        simpl in *; injection Hb as <-; [now rewrite Hvw|].
      unfold parsedFloat. destruct (ParseFloat t); now rewrite Hvw.
    + simpl. now rewrite String.eqb_refl.
Qed.

(** [hardEquals] never panics, answers true only for two numbers that are
    equal or two strings that are the same, and whenever it answers true so
    does [equals]. *)
Theorem hardEquals_never_panics (a b : Value) :
  exists r : bool,
    hardEquals ParseFloat a b = Ok r
    /\ (r = true <->
        (exists v w, a = VFloat v /\ b = VFloat w /\ PrimFloat.eqb v w = true)
        \/ (exists s, a = VString s /\ b = VString s))
    /\ (r = true -> equals ParseFloat a b = Ok true).
Proof.
  destruct a as [| | | v | s | |], b as [| | | w | t | |];
    try (exists false; repeat split; try discriminate;
         intros [(? & ? & ? & ? & _)|(? & ? & ?)]; discriminate).
  - exists (PrimFloat.eqb v w). repeat split.
    + intros H. left. eauto.
    + intros [(? & ? & Hv & Hw & H)|(? & ? & _)]; [|discriminate].
      injection Hv as <-. now injection Hw as <-.
    + intros H. simpl. now rewrite H.
  - exists (String.eqb s t). repeat split.
    + intros H. apply String.eqb_eq in H as ->. right. eauto.
    + intros [(? & ? & ? & _)|(? & Hs & Ht)]; [discriminate|].
      injection Hs as <-. injection Ht as <-. apply String.eqb_refl.
    + intros H. simpl. now rewrite H.
Qed.

End Equality.

(** ** [or], negation and the operands *)

Lemma or_step_passed_over (value : Value) (rest : list Value) :
  passedOver value = true -> _or (value :: rest) = _or rest.
Proof.
  unfold passedOver, truthy.
  destruct value as [| [|] | | f | | |]; try discriminate; try reflexivity.
  intros H. apply andb_prop in H as [H _]. apply negb_true_iff in H.
  simpl. unfold float_gt. now rewrite H.
Qed.

Lemma or_step_truthy (value : Value) (rest : list Value) :
  truthy value = true -> _or (value :: rest) = Ok value.
Proof.
  destruct value as [| [|] | | f | | |]; try discriminate; try reflexivity.
  simpl. unfold float_gt. now intros ->.
Qed.

(** [_or] returns the first operand that is true or a number greater than
    zero, as it is, and does not look at the operands behind it; when no
    operand is one, it returns false.  Strings, nil, arrays and maps are
    passed over. *)
Theorem or_returns_first_truthy (before after : list Value) (v : Value)
  (Hbefore : forallb passedOver before = true) :
  (truthy v = true -> _or (before ++ v :: after) = Ok v)
  /\ _or before = Ok (VBool false).
Proof.
  induction before as [|value before IH].
  - split; [apply or_step_truthy|reflexivity].
  - cbn [forallb] in Hbefore.
    apply andb_prop in Hbefore as [Hvalue Hbefore].
    destruct (IH Hbefore) as [IH1 IH2].
    rewrite <- app_comm_cons, !(or_step_passed_over _ _ Hvalue).
    now split.
Qed.

Lemma or_returns_first_truthy_witness :
  (truthy (VFloat 3) = true ->
   _or ([VBool false; VString "x"; VFloat 0] ++ VFloat 3 :: [VInt 1])
   = Ok (VFloat 3))
  /\ _or [VBool false; VString "x"; VFloat 0] = Ok (VBool false).
Proof.
  apply (or_returns_first_truthy
           [VBool false; VString "x"; VFloat 0] [VInt 1] (VFloat 3)).
  reflexivity.
Defined.

Lemma unary_not_int (operator : string) (v : Value) :
  isInt v = false ->
  unary operator v
  = Ok (VBool (if String.eqb operator "!" then negb (truthy v) else truthy v)).
Proof.
  destruct v; intros H; try discriminate H; unfold unary; simpl;
    now destruct (String.eqb operator "!").
Qed.

Section Operands.

Variable ParseFloat : string -> ParseFloatResult.
Variable FormatFloat : float -> string.
Variable intOverflow : float -> Z.

(** Negation of a primitive that is not an [int] is the negation of its
    truth, so that a string, even one that is not empty, negates to true;
    and negating twice, the inner rule in an operand list, gives the truth
    of the primitive as a boolean. *)
Theorem double_negation_is_truthiness (v data : Value)
  (Hprimitive : isPrimitive v = true) (Hint : isInt v = false) :
  apply ParseFloat FormatFloat intOverflow (VMap [("!", v)]) data
  = Ok (VBool (negb (truthy v)))
  /\ apply ParseFloat FormatFloat intOverflow
           (VMap [("!", VSlice [VMap [("!", v)]])]) data
     = Ok (VBool (truthy v)).
Proof.
  assert (Hinner :
    apply ParseFloat FormatFloat intOverflow (VMap [("!", v)]) data
    = Ok (VBool (negb (truthy v)))).
  { rewrite apply_entry, (parseValues_primitive _ _ _ _ _ Hprimitive).
    cbn [bind]. unfold operation. rewrite Hprimitive.
    cbn [String.eqb Ascii.eqb Bool.eqb]. now rewrite unary_not_int. }
  split; [exact Hinner|].
  rewrite apply_entry, parseValues_slice.
  cbn [parseLoop isMap is_ reflect.KindOf reflect.Kind_eqb].
  rewrite Hinner. cbn. now rewrite negb_involutive.
Qed.

(** A single operand in an operand list has to be a boolean, whatever the
    operator, [var] apart: the operator [!] negates it, every other
    operator returns it, and an operand of another kind panics, a number
    included. *)
Theorem single_operand_must_be_boolean
  (operator : string) (v data : Value)
  (Hoperator : operator <> "var") :
  operation ParseFloat FormatFloat intOverflow operator (VSlice [v]) data
  = match v with
    | VBool b => Ok (VBool (if String.eqb operator "!" then negb b else b))
    | _ => Panic InterfaceConversion
    end.
Proof.
  rewrite operation_single_operand
    by (now apply String.eqb_neq).
  destruct v; try reflexivity. cbn [asBool bind].
  now rewrite unary_not_int.
Qed.

(** The loop of [parseValues] stops at the first operand whose evaluation
    panics. *)
Lemma parseLoop_panic (before after : list Value) (r data : Value)
  (p : PanicKind) :
  forallb (fun value => negb (isMap value)) before = true ->
  isMap r = true ->
  apply ParseFloat FormatFloat intOverflow r data = Panic p ->
  parseLoop ParseFloat FormatFloat intOverflow data (before ++ r :: after)
  = Panic p.
Proof.
  intros Hbefore Hr Hpanic.
  induction before as [|value before IH]; simpl in *.
  - now rewrite Hr, Hpanic.
  - apply andb_prop in Hbefore as [Hvalue Hbefore].
    apply negb_true_iff in Hvalue. rewrite Hvalue. cbn [bind].
    now rewrite (IH Hbefore).
Qed.

(** Operands are evaluated before the operator is looked at: when the
    evaluation of an operand panics, the rule panics with it, whatever the
    operator is and wherever the operand stands, be it the branch of [?:]
    that is not taken or an operand of [or] behind a true one. *)
Theorem operands_are_evaluated_eagerly
  (operator : string) (before after : list Value) (r data : Value)
  (p : PanicKind)
  (Hbefore : forallb (fun value => negb (isMap value)) before = true)
  (Hrule : isMap r = true)
  (Hpanic : apply ParseFloat FormatFloat intOverflow r data = Panic p) :
  apply ParseFloat FormatFloat intOverflow
        (VMap [(operator, VSlice (before ++ r :: after))]) data
  = Panic p.
Proof.
  rewrite apply_entry, parseValues_slice.
  now rewrite (parseLoop_panic _ _ _ _ _ Hbefore Hrule Hpanic).
Qed.

End Operands.

Lemma double_negation_is_truthiness_witness :
  apply decimalParseFloat decimalFormatFloat amd64IntOverflow
        (VMap [("!", VString "text")]) VNil
  = Ok (VBool (negb (truthy (VString "text"))))
  /\ apply decimalParseFloat decimalFormatFloat amd64IntOverflow
           (VMap [("!", VSlice [VMap [("!", VString "text")]])]) VNil
     = Ok (VBool (truthy (VString "text"))).
Proof.
  apply (double_negation_is_truthiness
           decimalParseFloat decimalFormatFloat amd64IntOverflow
           (VString "text") VNil); reflexivity.
Defined.

Lemma single_operand_must_be_boolean_witness :
  operation decimalParseFloat decimalFormatFloat amd64IntOverflow "!"
            (VSlice [VFloat 5]) VNil
  = Panic InterfaceConversion.
Proof.
  apply (single_operand_must_be_boolean
           decimalParseFloat decimalFormatFloat amd64IntOverflow
           "!" (VFloat 5) VNil).
  discriminate.
Defined.

Lemma operands_are_evaluated_eagerly_witness :
  apply decimalParseFloat decimalFormatFloat amd64IntOverflow
        (VMap [("?:", VSlice ([VBool true; VFloat 1]
                              ++ VMap [("==", VSlice [VString "a"; VFloat 1])]
                              :: []))])
        (VMap [])
  = Panic InterfaceConversion.
Proof.
  apply (operands_are_evaluated_eagerly
           decimalParseFloat decimalFormatFloat amd64IntOverflow
           "?:" [VBool true; VFloat 1] []
           (VMap [("==", VSlice [VString "a"; VFloat 1])]) (VMap [])
           InterfaceConversion); reflexivity.
Defined.

(** ** The shape of the operands *)

Section Shape.

Variable ParseFloat : string -> ParseFloatResult.
Variable FormatFloat : float -> string.
Variable intOverflow : float -> Z.

Lemma parseLoop_pointwise (data : Value) (l : list Value) :
  forall parsed,
  parseLoop ParseFloat FormatFloat intOverflow data l = Ok parsed ->
  List.length parsed = List.length l
  /\ forall i v,
       nth_error l i = Some v ->
       exists w,
         nth_error parsed i = Some w
         /\ (if isMap v
             then apply ParseFloat FormatFloat intOverflow v data = Ok w
             else w = v).
Proof.
  induction l as [|value rest IH]; intros parsed H; simpl in H.
  - injection H as <-. split; [reflexivity|]. intros [|i] v Hv; discriminate.
  - destruct (if isMap value
              then apply ParseFloat FormatFloat intOverflow value data
              else Ok value) as [w|] eqn:Hvalue; [|discriminate H].
    cbn [bind] in H.
    destruct (parseLoop ParseFloat FormatFloat intOverflow data rest)
      as [parsed'|] eqn:Hrest; [|discriminate H].
    injection H as <-. destruct (IH parsed' eq_refl) as [Hlen Hnth].
    split; [simpl; now rewrite Hlen|].
    intros [|i] v Hv; simpl in Hv.
    + injection Hv as <-. exists w. split; [reflexivity|].
      destruct (isMap value); [exact Hvalue|now injection Hvalue].
    + now apply Hnth.
Qed.

(** When [parseValues] returns on an operand list it returns a list of the
    same length, in which an operand that is a map has given way to its
    value and every other operand stands as it was: an array among the
    operands is not entered, so a rule inside it is not evaluated. *)
Theorem parseValues_keeps_shape (l : list Value) (data r : Value)
  (Hreturns : parseValues ParseFloat FormatFloat intOverflow (VSlice l) data
              = Ok r) :
  exists parsed,
    r = VSlice parsed
    /\ List.length parsed = List.length l
    /\ forall i v,
         nth_error l i = Some v ->
         exists w,
           nth_error parsed i = Some w
           /\ (if isMap v
               then apply ParseFloat FormatFloat intOverflow v data = Ok w
               else w = v).
Proof.
  rewrite parseValues_slice in Hreturns.
  destruct (parseLoop ParseFloat FormatFloat intOverflow data l)
    as [parsed|] eqn:Hloop; [|discriminate Hreturns].
  injection Hreturns as <-. exists parsed.
  split; [reflexivity|]. now apply parseLoop_pointwise.
Qed.

End Shape.

Lemma parseValues_keeps_shape_witness :
  exists parsed,
    VSlice [VFloat 1; VSlice [VMap [("var", VString "a")]]] = VSlice parsed
    /\ List.length parsed
       = List.length [VMap [("var", VString "a")];
                      VSlice [VMap [("var", VString "a")]]]
    /\ forall i v,
         nth_error [VMap [("var", VString "a")];
                    VSlice [VMap [("var", VString "a")]]] i = Some v ->
         exists w,
           nth_error parsed i = Some w
           /\ (if isMap v
               then apply decimalParseFloat decimalFormatFloat
                          amd64IntOverflow v (VMap [("a", VFloat 1)]) = Ok w
               else w = v).
Proof.
  apply (parseValues_keeps_shape
           decimalParseFloat decimalFormatFloat amd64IntOverflow
           [VMap [("var", VString "a")]; VSlice [VMap [("var", VString "a")]]]
           (VMap [("a", VFloat 1)])).
  reflexivity.
Defined.

(** ** The order of the operands of [and] *)

(** Two numbers greater than zero neither of which is less than the other
    are one and the same. *)
Lemma SF_positive_equal (x y : spec_float) :
  SFltb (S754_zero false) x = true -> SFltb (S754_zero false) y = true ->
  SFltb x y = false -> SFltb y x = false -> x = y.
Proof.
  unfold SFltb, SFcompare.
  destruct x as [[|]|[|]| |[|] mx ex], y as [[|]|[|]| |[|] my ey];
    try discriminate; try reflexivity;
    intros _ _; compare_cases; simpl; try discriminate; intros _ _;
    subst; try reflexivity; lia.
Qed.

Lemma positive_equal (x y : float) :
  PrimFloat.ltb 0 x = true -> PrimFloat.ltb 0 y = true ->
  PrimFloat.ltb x y = false -> PrimFloat.ltb y x = false -> x = y.
Proof.
  rewrite !ltb_spec. intros Hx Hy Hxy Hyx.
  rewrite <- (SF2Prim_Prim2SF x), <- (SF2Prim_Prim2SF y). f_equal.
  now apply SF_positive_equal.
Qed.

Lemma runningAnd_Permutation (values values' : list Value) :
  Permutation values values' -> runningAnd values = runningAnd values'.
Proof.
  unfold runningAnd.
  induction 1 as [|v l l' _ IH|v w l|l l' l'' _ IH1 _ IH2]; simpl.
  - reflexivity.
  - now rewrite IH.
  - now rewrite !andb_assoc, (andb_comm (match w with VBool b => b | _ => true end)).
  - now rewrite IH1.
Qed.

Lemma anyPositive_Permutation (values values' : list Value) :
  Permutation values values' -> anyPositive values = anyPositive values'.
Proof.
  unfold anyPositive.
  induction 1 as [|v l l' _ IH|v w l|l l' l'' _ IH1 _ IH2]; simpl.
  - reflexivity.
  - now rewrite IH.
  - now rewrite !orb_assoc,
      (orb_comm (match w with VFloat f => PrimFloat.ltb 0 f | _ => false end)).
  - now rewrite IH1.
Qed.

(** What [_and] returns, with what tells the number returned apart. *)
Lemma and_result (values : list Value) :
  Forall boolOrNumber values ->
  exists m : float,
    _and values
    = Ok (if runningAnd values && anyPositive values
          then VFloat m
          else VBool (runningAnd values))
    /\ isNumeric m
    /\ (anyPositive values = true ->
        In (VFloat m) values /\ PrimFloat.ltb 0 m = true)
    /\ forall f, In (VFloat f) values -> PrimFloat.ltb m f = false.
Proof.
  intros Hoperands.
  assert (H0 : isNumeric 0) by (vm_compute; discriminate).
  destruct (and_loop_invariant values Hoperands true 0%float H0)
    as (m & Hloop & Hm & Hin & Hlow & Hup).
  assert (Hpos : PrimFloat.ltb 0 m = anyPositive values).
  { destruct (anyPositive values) eqn:Hany.
    - apply existsb_exists in Hany as (v & Hv & Hf).
      destruct v as [| | | f | | |]; try discriminate Hf.
      destruct (ltb_cotrans _ m _ Hm Hf) as [H|H]; [exact H|].
      now rewrite (Hup f Hv) in H.
    - destruct (PrimFloat.ltb 0 m) eqn:E; [|reflexivity].
      destruct Hin as [->|Hin]; [now rewrite ltb_irrefl in E|].
      rewrite <- Hany. symmetry. apply existsb_exists.
      exists (VFloat m). now split. }
  exists m. repeat split; auto.
  - unfold _and. rewrite Hloop. cbn [bind andb]. unfold float_gt.
    rewrite Hpos. now destruct (runningAnd values && anyPositive values).
  - destruct Hin as [->|Hin]; [|exact Hin].
    rewrite H in Hpos. now rewrite ltb_irrefl in Hpos.
  - now rewrite Hpos.
Qed.

(** On booleans and numbers the result of [_and] does not depend on the
    order of the operands. *)
Theorem and_order_is_irrelevant (values values' : list Value)
  (Hoperands : Forall boolOrNumber values)
  (Hsame : Permutation values values') :
  _and values = _and values'.
Proof.
  assert (Hoperands' : Forall boolOrNumber values')
    by (eapply Permutation_Forall; eassumption).
  destruct (and_result values Hoperands) as (m & -> & Hm & Hpos & Hup).
  destruct (and_result values' Hoperands') as (m' & -> & Hm' & Hpos' & Hup').
  rewrite <- (runningAnd_Permutation _ _ Hsame),
          <- (anyPositive_Permutation _ _ Hsame) in *.
  destruct (anyPositive values) eqn:Hany;
    [|now rewrite andb_false_r].
  destruct (Hpos eq_refl) as [Hin Hgt].
  destruct (Hpos' eq_refl) as [Hin' Hgt'].
  rewrite (positive_equal m m' Hgt Hgt'); [reflexivity| |].
  - apply Hup. eapply Permutation_in; [symmetry|]; eassumption.
  - apply Hup'. eapply Permutation_in; eassumption.
Qed.

Lemma and_order_is_irrelevant_witness :
  _and [VFloat 3; VBool true; VFloat 7] = _and [VFloat 7; VFloat 3; VBool true].
Proof.
  apply (and_order_is_irrelevant
           [VFloat 3; VBool true; VFloat 7] [VFloat 7; VFloat 3; VBool true]).
  - repeat constructor.
  - apply (Permutation_cons_app [VFloat 7] [VBool true] (VFloat 3)).
    apply perm_swap.
Defined.

(** ** Needles that are not compared *)

Lemma in_loop_uncomparable (needle : Value) (l : list Value) :
  comparable needle = false ->
  in_loop needle l
  = if existsb (fun v => reflect.Kind_eqb (reflect.KindOf v)
                                          (reflect.KindOf needle)) l
    then Panic UncomparableType
    else Ok false.
Proof.
  intros Hneedle. induction l as [|v l IH]; [reflexivity|].
  destruct needle; try discriminate Hneedle;
    destruct v; simpl in *; try reflexivity; exact IH.
Qed.

(** [_in] never finds a needle that is an array or a map: in an array it
    panics as soon as it meets an element of the kind of the needle and
    answers false when there is none, and in anything else it panics. *)
Theorem in_never_finds_array_or_map (needle haystack : Value)
  (Hneedle : comparable needle = false) :
  _in needle haystack <> Ok true
  /\ forall l,
       haystack = VSlice l ->
       _in needle haystack
       = if existsb (fun v => reflect.Kind_eqb (reflect.KindOf v)
                                               (reflect.KindOf needle)) l
         then Panic UncomparableType
         else Ok false.
Proof.
  split.
  - destruct haystack as [| | | | s | l |];
      try (destruct needle; discriminate).
    change (_in needle (VSlice l)) with (in_loop needle l).
    rewrite (in_loop_uncomparable _ _ Hneedle).
    now destruct (existsb _ l).
  - intros l ->. now apply in_loop_uncomparable.
Qed.

Lemma in_never_finds_array_or_map_witness :
  _in (VSlice [VFloat 1]) (VSlice [VFloat 1; VSlice [VFloat 1]]) <> Ok true
  /\ forall l,
       VSlice [VFloat 1; VSlice [VFloat 1]] = VSlice l ->
       _in (VSlice [VFloat 1]) (VSlice [VFloat 1; VSlice [VFloat 1]])
       = if existsb (fun v => reflect.Kind_eqb
                                (reflect.KindOf v)
                                (reflect.KindOf (VSlice [VFloat 1]))) l
         then Panic UncomparableType
         else Ok false.
Proof.
  apply (in_never_finds_array_or_map
           (VSlice [VFloat 1]) (VSlice [VFloat 1; VSlice [VFloat 1]])).
  reflexivity.
Defined.

(** ** What [Apply] stores *)

Section Stores.

Variable ParseFloat : string -> ParseFloatResult.
Variable FormatFloat : float -> string.
Variable intOverflow : float -> Z.

Lemma convertToResult_storable (target : TargetType) (v : Value) :
  (storable target v = true ->
   convertToResult target v = Ok (if isNil v then None else Some v))
  /\ (storable target v = false -> exists p, convertToResult target v = Panic p).
Proof.
  destruct target, v; simpl; split; intros H;
    try discriminate H; try reflexivity; eauto.
Qed.

(** With a result argument it accepts, [Apply] stores what the rule
    evaluates to, or the rule itself when the rule is not a map, whatever
    the data is; it stores nothing when that value is nil; and when the
    value is of a kind the target cannot hold it panics and returns no
    error. *)
Theorem Apply_stores_the_result
  (rules data v : Value) (target : TargetType)
  (Hvalue : (if isMap rules
             then apply ParseFloat FormatFloat intOverflow rules data
             else Ok rules) = Ok v) :
  (storable target v = true ->
   Apply ParseFloat FormatFloat intOverflow rules data (Pointer true target)
   = Ok {| err := None; stored := if isNil v then None else Some v |})
  /\ (storable target v = false ->
      exists p,
        Apply ParseFloat FormatFloat intOverflow rules data
              (Pointer true target)
        = Panic p).
Proof.
  destruct (convertToResult_storable target v) as [Hok Hpanic].
  unfold Apply. cbn [negb].
  destruct (isMap rules).
  - rewrite Hvalue. cbn [bind]. split; intros H.
    + now rewrite (Hok H).
    + destruct (Hpanic H) as [p ->]. now exists p.
  - injection Hvalue as ->. split; intros H.
    + now rewrite (Hok H).
    + destruct (Hpanic H) as [p ->]. now exists p.
Qed.

End Stores.

Lemma Apply_stores_the_result_witness :
  (storable TFloat64 (VFloat 5) = true ->
   Apply decimalParseFloat decimalFormatFloat amd64IntOverflow
         (VFloat 5) (VString "any data") (Pointer true TFloat64)
   = Ok {| err := None; stored := Some (VFloat 5) |})
  /\ (storable TFloat64 (VFloat 5) = false ->
      exists p,
        Apply decimalParseFloat decimalFormatFloat amd64IntOverflow
              (VFloat 5) (VString "any data") (Pointer true TFloat64)
        = Panic p).
Proof.
  apply (Apply_stores_the_result
           decimalParseFloat decimalFormatFloat amd64IntOverflow
           (VFloat 5) (VString "any data") (VFloat 5) TFloat64).
  reflexivity.
Defined.

(** ** Operators on one primitive, and numbers held as [int] *)

Section Primitives.

Variable ParseFloat : string -> ParseFloatResult.
Variable FormatFloat : float -> string.
Variable intOverflow : float -> Z.

(** An operator whose operand is one primitive and not a list is not
    looked at beyond [var] and [!]: [!] negates the truth of the primitive
    and every other operator, [==] or [and] or a name that is no operator,
    returns that truth. *)
Theorem primitive_operand_is_cast_to_truth
  (operator : string) (v data : Value)
  (Hoperator : operator <> "var")
  (Hprimitive : isPrimitive v = true) (Hint : isInt v = false) :
  apply ParseFloat FormatFloat intOverflow (VMap [(operator, v)]) data
  = Ok (VBool (if String.eqb operator "!" then negb (truthy v) else truthy v)).
Proof.
  rewrite apply_entry, (parseValues_primitive _ _ _ _ _ Hprimitive).
  cbn [bind]. unfold operation.
  apply String.eqb_neq in Hoperator. rewrite Hoperator, Hprimitive.
  now apply unary_not_int.
Qed.

(** The chained [<=] of three numbers holds when both steps hold in the
    sense of IEEE 754, and does not panic. *)
Theorem chained_less_or_equal_on_numbers (a b c : float) (data : Value) :
  operation ParseFloat FormatFloat intOverflow "<="
            (VSlice [VFloat a; VFloat b; VFloat c]) data
  = Ok (VBool (PrimFloat.leb a b && PrimFloat.leb b c)).
Proof.
  assert (Hle : forall x y,
             PrimFloat.ltb x y || PrimFloat.eqb x y = PrimFloat.leb x y).
  { intros x y. rewrite ltb_spec, eqb_spec, leb_spec.
    symmetry. apply SFleb_ltb_eqb. }
  change (operation ParseFloat FormatFloat intOverflow "<="
                    (VSlice [VFloat a; VFloat b; VFloat c]) data)
    with (r <- and_then (or_else (Ok (PrimFloat.ltb a b))
                                 (Ok (PrimFloat.eqb a b)))
                        (or_else (Ok (PrimFloat.ltb b c))
                                 (Ok (PrimFloat.eqb b c))) ;;
          Ok (VBool r)).
  rewrite <- !Hle.
  now destruct (PrimFloat.ltb a b), (PrimFloat.eqb a b),
    (PrimFloat.ltb b c), (PrimFloat.eqb b c).
Qed.

(** A number the data holds as an [int] under a key is compared as the
    [float64] it converts to when the rule reads it through [var], while an
    [int] written in the rule itself is never less than anything. *)
Theorem int_in_data_is_compared_as_float64
  (key : string) (m : list (string * Value)) (n : Z) (w : float)
  (Hkey : singleSegment key) (Hheld : mapIndex m key = VInt n) :
  apply ParseFloat FormatFloat intOverflow
        (VMap [("<", VSlice [VMap [("var", VString key)]; VFloat w])]) (VMap m)
  = Ok (VBool (PrimFloat.ltb (float64 n) w))
  /\ apply ParseFloat FormatFloat intOverflow
           (VMap [("<", VSlice [VInt n; VFloat w])]) (VMap m)
     = Ok (VBool false).
Proof.
  split; [|reflexivity].
  assert (Hvar :
    apply ParseFloat FormatFloat intOverflow
          (VMap [("var", VString key)]) (VMap m)
    = Ok (VFloat (float64 n))).
  { rewrite apply_var_primitive by reflexivity.
    unfold getVar.
    cbn [isNil isSlice isNumber is_ reflect.KindOf reflect.Kind_eqb orb
         asString bind].
    rewrite Hkey. cbn [getVarLoop].
    rewrite getVarFromData_string_path, Hheld. reflexivity. }
  rewrite apply_entry, parseValues_slice.
  cbn [parseLoop isMap is_ reflect.KindOf reflect.Kind_eqb].
  rewrite Hvar. reflexivity.
Qed.

End Primitives.

Lemma primitive_operand_is_cast_to_truth_witness :
  apply decimalParseFloat decimalFormatFloat amd64IntOverflow
        (VMap [("==", VFloat 5)]) VNil
  = Ok (VBool true).
Proof.
  apply (primitive_operand_is_cast_to_truth
           decimalParseFloat decimalFormatFloat amd64IntOverflow
           "==" (VFloat 5) VNil); [discriminate|reflexivity|reflexivity].
Defined.

Lemma int_in_data_is_compared_as_float64_witness :
  apply decimalParseFloat decimalFormatFloat amd64IntOverflow
        (VMap [("<", VSlice [VMap [("var", VString "age")]; VFloat 21])])
        (VMap [("age", VInt 18)])
  = Ok (VBool (PrimFloat.ltb (float64 18) 21))
  /\ apply decimalParseFloat decimalFormatFloat amd64IntOverflow
           (VMap [("<", VSlice [VInt 18; VFloat 21])])
           (VMap [("age", VInt 18)])
     = Ok (VBool false).
Proof.
  apply (int_in_data_is_compared_as_float64
           decimalParseFloat decimalFormatFloat amd64IntOverflow
           "age" [("age", VInt 18)] 18%Z 21%float); reflexivity.
Defined.
